(** * Verification of the ArbiterOS compliance engine

    Shallow embedding of the deterministic parts of the engine:
    - [services/legalEngine.ts]: the law library, the rule checkers
      [verifyOrdinary], [verifyNecessary], [verifyNegotiability] and the
      form synthesizer [generateVerifiedForm];
    - [LegalPackages/auditor.ts.tsx]: the history-based policy gate
      [isNecessaryEnabled] (with [JSON.parse] of the recorded tool output);
    - [services/geminiService.ts]: the session policy flag
      [toolsPolicyState.ordinaryPassed] and [getAllowedTools];
    - the audit ledger provider ([addEntry], [clearLog]).

    JavaScript strings are modelled as [string] (one [ascii] per UTF-16 code
    unit in the 8-bit range); JavaScript numbers as IEEE-754 binary64 values
    ([spec_float] with precision 53 and [emax] 1024). Values the code reads
    from the clock or from [Math.random] are explicit inputs. *)

From Stdlib Require Import String Ascii List Bool ZArith QArith Qpower Lia Lqa.
From Stdlib Require Import Floats.SpecFloat.
Import ListNotations.
Open Scope nat_scope.
Open Scope string_scope.

(* ------------------------------------------------------------------ *)
(** ** JavaScript string primitives *)

Definition dq : string := String (ascii_of_nat 34%nat) EmptyString.
Definition nl : string := String (ascii_of_nat 10%nat) EmptyString.

(** [String.prototype.toLowerCase] on 8-bit code units: ASCII [A-Z] and the
    Latin-1 capitals U+00C0..U+00DE (except U+00D7) map to their lower case,
    which is 32 code points higher. *)
Definition lower_char (c : ascii) : ascii :=
  let n := nat_of_ascii c in
  if ((65 <=? n)%nat && (n <=? 90)%nat) || ((192 <=? n)%nat && (n <=? 222)%nat && negb (n =? 215)%nat)
  then ascii_of_nat (n + 32)%nat else c.

Fixpoint toLowerCase (s : string) : string :=
  match s with
  | EmptyString => EmptyString
  | String c r => String (lower_char c) (toLowerCase r)
  end.

(** [s.startsWith(p)] *)
Fixpoint startsWith (s p : string) : bool :=
  match p, s with
  | EmptyString, _ => true
  | String c p', String d s' => Ascii.eqb c d && startsWith s' p'
  | String _ _, EmptyString => false
  end.

(** [s.includes(p)] *)
Fixpoint includes (s p : string) : bool :=
  startsWith s p ||
  match s with
  | EmptyString => false
  | String _ s' => includes s' p
  end.

(** [xs.join(sep)] *)
Fixpoint join (sep : string) (xs : list string) : string :=
  match xs with
  | [] => EmptyString
  | [x] => x
  | x :: xs' => x ++ sep ++ join sep xs'
  end.

(** [xs.includes(x)] for an array of strings *)
Definition array_includes (xs : list string) (x : string) : bool :=
  existsb (String.eqb x) xs.

(** Lines of a template literal that starts and ends with a line break. *)
Definition template (lines : list string) : string :=
  nl ++ join nl lines ++ nl.

(** [a || b] where [a] is an optional string field: the empty string and
    [undefined] are falsy. *)
Definition or_str (a : option string) (b : string) : string :=
  match a with
  | Some s => if String.eqb s EmptyString then b else s
  | None => b
  end.

Definition truthy_str (a : option string) : bool :=
  match a with
  | Some s => negb (String.eqb s EmptyString)
  | None => false
  end.

(* ------------------------------------------------------------------ *)
(** ** The verdict model ([ValidationStep]) *)

Record ValidationStep := mkStep {
  rule_id : string;
  passed : bool;
  details : string;
  evidence_source : string;
  timestamp : string;
  generated_content : option string
}.

(* ------------------------------------------------------------------ *)
(** ** Ordinary-expense checker *)

Definition ircEndpoint : string := "https://api.law.gov/rac/irc".

Definition carpenter_items : list string :=
  ["truck"; "hammer"; "saw"; "toolbox"; "work_boots"].

(** [VerifiableLawDatabaseClient.query] *)
Definition query (endpoint naics expense : string) : bool * string :=
  let source := "LIVE_QUERY: " ++ endpoint ++ "/section/162a/precedent?naics=" ++ naics in
  if String.eqb naics "238350" && array_includes carpenter_items (toLowerCase expense)
  then (true, source)
  else (false, source).

(** [verifyOrdinary]; [now] is [new Date().toISOString()]. *)
Definition verifyOrdinary (now naics_code expense_item_category : string) : ValidationStep :=
  let '(is_ordinary, source) := query ircEndpoint naics_code expense_item_category in
  {| rule_id := "rule_is_ordinary";
     passed := is_ordinary;
     details :=
       if is_ordinary
       then "PASSED: '" ++ expense_item_category ++ "' is a verifiable " ++ dq ++ "ordinary"
            ++ dq ++ " expense under IRC Sec 162(a) for NAICS code " ++ naics_code ++ "."
       else "FAILED: '" ++ expense_item_category ++ "' is NOT a verifiable " ++ dq ++ "ordinary"
            ++ dq ++ " expense under IRC Sec 162(a) for NAICS code " ++ naics_code ++ ".";
     evidence_source := source;
     timestamp := now;
     generated_content := None |}.

(* ------------------------------------------------------------------ *)
(** ** The law library and [consultStatute] *)

(** U+00A7 SECTION SIGN, one UTF-16 code unit. *)
Definition sect : string := String (ascii_of_nat 167%nat) EmptyString.

Record Statute := mkStatute { st_title : string; st_source : string; st_text : string }.

(** [LAW_LIBRARY], keys in insertion order. *)
Definition LAW_LIBRARY : list (string * Statute) := [
  ("UCC 3-104",
   {| st_title := "Negotiable Instrument";
      st_source := "Uniform Commercial Code " ++ sect ++ " 3-104";
      st_text := "(a) ...means an unconditional promise or order to pay a fixed amount of money, with or without interest or other charges described in the promise or order, if it: (1) is payable to bearer or to order at the time it is issued or first comes into possession of a holder; (2) is payable on demand or at a definite time; and (3) does not state any other undertaking or instruction..." |});
  ("UCC 9-203",
   {| st_title := "Attachment and Enforceability of Security Interest";
      st_source := "Uniform Commercial Code " ++ sect ++ " 9-203";
      st_text := "(b) ...a security interest is enforceable against the debtor and third parties with respect to the collateral only if: (1) value has been given; (2) the debtor has rights in the collateral... and (3) one of the following conditions is met: (A) the debtor has authenticated a security agreement that provides a description of the collateral..." |});
  ("UCC 2-201",
   {| st_title := "Formal Requirements; Statute of Frauds";
      st_source := "Uniform Commercial Code " ++ sect ++ " 2-201";
      st_text := "(1) a contract for the sale of goods for the price of $500 or more is not enforceable by way of action or defense unless there is some writing sufficient to indicate that a contract for sale has been made between the parties and signed by the party against whom enforcement is sought..." |});
  ("FTC Credit Rule",
   {| st_title := "Unfair Credit Practices";
      st_source := "16 CFR " ++ sect ++ " 444.2";
      st_text := "(a) In connection with the extension of credit... it is an unfair act or practice... for a lender or retail installment seller... to take or receive from a consumer an obligation that: (1) Constitutes or contains a cognovit or confession of judgment (for other than purposes of executory process in the State of Louisiana)..." |})
].

Record StatuteResult := mkStatuteResult {
  found : bool; title : option string; text : option string; citation : option string
}.

(** [consultStatute]: the first key [k] with [query] containing [k] or [k]
    containing [query], both lower-cased. *)
Definition consultStatute (q : string) : StatuteResult :=
  match find (fun '(k, _) =>
                includes (toLowerCase q) (toLowerCase k)
                || includes (toLowerCase k) (toLowerCase q)) LAW_LIBRARY with
  | Some (_, s) => {| found := true; title := Some (st_title s);
                      text := Some (st_text s); citation := Some (st_source s) |}
  | None => {| found := false; title := None; text := None; citation := None |}
  end.

(* ------------------------------------------------------------------ *)
(** ** JavaScript numbers: IEEE-754 binary64 *)

Definition prec64 : Z := 53.
Definition emax64 : Z := 1024.
Definition js_div (x y : spec_float) : spec_float := SFdiv prec64 emax64 x y.
Definition js_mul (x y : spec_float) : spec_float := SFmul prec64 emax64 x y.
(** [x <= y]: false as soon as one side is NaN. *)
Definition js_le (x y : spec_float) : bool := SFleb x y.

(** 0.5 = 2^52 * 2^-53 and 100 = 100 * 2^0, in canonical form. *)
Definition half : spec_float := S754_finite false 4503599627370496 (-53).
Definition hundred : spec_float := binary_normalize prec64 emax64 100 0 false.

(** An integer as a binary64 value (exact when |n| < 2^53). *)
Definition num_of_Z (n : Z) : spec_float := binary_normalize prec64 emax64 n 0 false.

(** The exact rational value of a finite float. *)
Definition Q_of_float (x : spec_float) : option Q :=
  match x with
  | S754_zero _ => Some 0%Q
  | S754_finite s m e =>
      let v := (if s then Z.neg m else Z.pos m) in
      match e with
      | Z.pos p => Some (inject_Z (v * 2 ^ Z.pos p))
      | Z0 => Some (inject_Z v)
      | Z.neg p => Some (v # (2 ^ p)%positive)
      end
  | _ => None
  end.

(* ------------------------------------------------------------------ *)
(** ** Necessity-ratio checker *)

(** [verifyNecessary]; [toFixed1 x] is [x.toFixed(1)]. *)
Definition verifyNecessary (now : string) (toFixed1 : spec_float -> string)
    (expense_amount business_revenue : spec_float) : ValidationStep :=
  let ratio := js_div expense_amount business_revenue in
  let is_necessary := js_le ratio half in
  let source := "Business Logic (Ratio Analysis)" in
  {| rule_id := "rule_is_necessary";
     passed := is_necessary;
     details :=
       if is_necessary
       then "PASSED: Expense-to-Revenue ratio is " ++ toFixed1 (js_mul ratio hundred)
            ++ "% (within 50% threshold)."
       else "FAILED: Expense-to-Revenue ratio is " ++ toFixed1 (js_mul ratio hundred)
            ++ "% (exceeds 50% threshold).";
     evidence_source := source;
     timestamp := now;
     generated_content := None |}.

(** [isNecessaryTool.execute] in [LegalPackages/auditor.ts.tsx] has the same
    body as [verifyNecessary]. *)
Definition isNecessaryTool_execute := verifyNecessary.

(** Decimal digits of a nonnegative integer. *)
Fixpoint dec_rev (fuel : nat) (n : Z) (acc : string) : string :=
  match fuel with
  | O => acc
  | S f =>
      let acc' := String (ascii_of_nat (48 + Z.to_nat (n mod 10))) acc in
      if (n <? 10)%Z then acc' else dec_rev f (n / 10)%Z acc'
  end.
Definition dec_string (n : Z) : string := dec_rev 400 n EmptyString.

(** [x.toFixed(1)] (Number.prototype.toFixed): the integer [n] nearest to
    [10 * |x|], the larger one on a tie, printed with one fraction digit.
    From [10^21] on, JavaScript prints [Number::toString(x)] (exponent form);
    this model prints the integer digits there. *)
Definition toFixed1 (x : spec_float) : string :=
  match x with
  | S754_nan => "NaN"
  | S754_infinity false => "Infinity"
  | S754_infinity true => "-Infinity"
  | S754_zero _ => "0.0"
  | S754_finite s m e =>
      let n := match e with
               | Z.neg k => ((20 * Z.pos m + 2 ^ Z.pos k) / 2 ^ (Z.pos k + 1))%Z
               | _ => (10 * Z.pos m * 2 ^ e)%Z
               end in
      (if s then "-" else EmptyString) ++ dec_string (n / 10)%Z ++ "."
        ++ dec_string (n mod 10)%Z
  end.

(* ------------------------------------------------------------------ *)
(** ** Negotiability checker (UCC 3-104) *)

Inductive PromiseType := Conditional | Unconditional.
Inductive AmountType := Fixed | Variable'.
Inductive PayableTo := Bearer | Order | Specific_person.
Inductive Timing := Demand | Definite | Indefinite.

Record InstrumentTerms := mkTerms {
  promise_type : PromiseType;
  amount_type : AmountType;
  currency : option string;
  payable_to : PayableTo;
  timing : Timing;
  other_undertakings : bool
}.

Definition msg_unconditional := "Must be an unconditional promise (UCC 3-104(a))".
Definition msg_fixed := "Must specify a fixed amount of money (UCC 3-104(a))".
Definition msg_payable := "Must be payable to bearer or to order (UCC 3-104(a)(1))".
Definition msg_timing := "Must be payable on demand or at a definite time (UCC 3-104(a)(2))".
Definition msg_undertaking := "Must not state any other undertaking (UCC 3-104(a)(3))".

(** The five [if ... failures.push(...)] statements, in order. *)
Definition push_if (b : bool) (m : string) (failures : list string) : list string :=
  if b then failures ++ [m] else failures.

Definition negotiability_failures (terms : InstrumentTerms) : list string :=
  let f0 := [] in
  let f1 := push_if (match promise_type terms with Unconditional => false | _ => true end)
                    msg_unconditional f0 in
  let f2 := push_if (match amount_type terms with Fixed => false | _ => true end)
                    msg_fixed f1 in
  let f3 := push_if (match payable_to terms with Specific_person => true | _ => false end)
                    msg_payable f2 in
  let f4 := push_if (match timing terms with Indefinite => true | _ => false end)
                    msg_timing f3 in
  push_if (other_undertakings terms) msg_undertaking f4.

Definition verifyNegotiability (now : string) (terms : InstrumentTerms) : ValidationStep :=
  let failures := negotiability_failures terms in
  let statute := consultStatute "UCC 3-104" in
  let ok := Nat.eqb (List.length failures) 0 in
  {| rule_id := "UCC_3_104";
     passed := ok;
     details :=
       if ok
       then "PASSED: Instrument meets all UCC 3-104 requirements for negotiability."
       else "FAILED: Non-negotiable. Violations: " ++ join ", " failures;
     evidence_source := or_str (citation statute) "UCC 3-104";
     timestamp := now;
     generated_content := None |}.

(* ------------------------------------------------------------------ *)
(** ** Form synthesizer ([generateVerifiedForm]) *)

(** The [data] argument: the [draft_verified_form] call arguments. Each
    field the code reads is absent ([None]) or has the type the tool
    declaration gives it ([amount] is a number, every other field a string). *)
Record FormData := mkFormData {
  amount : option spec_float;
  date : option string;
  lender : option string;
  borrower : option string;
  seller : option string;
  buyer : option string;
  client : option string;
  contractor : option string;
  collateral : option string;
  goods_description : option string;
  services : option string;
  state : option string;
  debtor : option string;
  secured_party : option string;
  obligation : option string
}.

(** What the synthesizer reads from its environment: [new Date().toISOString()]
    ([now]), its date part ([today]) and [Number.prototype.toString]. *)
Record FormEnv := mkFormEnv {
  now : string;
  today : string;
  num_to_string : spec_float -> string
}.

(** A number is falsy when it is +0, -0 or NaN. *)
Definition or_num (env : FormEnv) (a : option spec_float) (b : string) : string :=
  match a with
  | Some (S754_zero _) | Some S754_nan | None => b
  | Some x => num_to_string env x
  end.

Definition promissory_note_text (env : FormEnv) (data : FormData) : string :=
  template [
    "# PROMISSORY NOTE (UCC " ++ sect ++ " 3-104 Compliant)";
    EmptyString;
    "**Principal Amount:** $" ++ or_num env (amount data) "___";
    "**Date:** " ++ or_str (date data) "On Demand";
    EmptyString;
    "FOR VALUE RECEIVED, the undersigned (" ++ dq ++ "Borrower" ++ dq
      ++ ") promises to pay to the order of **" ++ or_str (lender data) "___" ++ "** ("
      ++ dq ++ "Lender" ++ dq ++ ") the principal sum of **$"
      ++ or_num env (amount data) "___" ++ "** USD.";
    EmptyString;
    "**1. PAYMENT.**";
    (if truthy_str (date data)
     then "Payment shall be made in full on " ++ or_str (date data) EmptyString ++ "."
     else "Payment shall be made immediately upon demand by Lender.");
    EmptyString;
    "**2. UNCONDITIONAL PROMISE.**";
    "This Note represents an unconditional promise to pay and is not subject to any other agreement.";
    EmptyString;
    "**3. GOVERNING LAW.**";
    "This Note shall be governed by the Uniform Commercial Code as adopted in the State of "
      ++ or_str (state data) "Delaware" ++ ".";
    EmptyString;
    "**4. WAIVERS.**";
    "Borrower waives presentment, demand, protest, and notice of dishonor.";
    EmptyString;
    "**5. EXECUTION.**";
    "The parties hereby execute this Note as of the date first written above.";
    EmptyString;
    "[SIGNATURE_FIELD:Borrower Signature]";
    "**" ++ or_str (borrower data) "Borrower" ++ "**";
    EmptyString;
    "[SIGNATURE_FIELD:Lender Signature]";
    "**" ++ or_str (lender data) "Lender" ++ "**"
  ].

Definition security_agreement_header : string := "# SECURITY AGREEMENT (UCC Article 9)".

Definition security_agreement_text (env : FormEnv) (data : FormData) : string :=
  template [
    security_agreement_header;
    EmptyString;
    "This Security Agreement is entered into on **" ++ or_str (date data) (today env)
      ++ "** between **" ++ or_str (debtor data) "Debtor" ++ "** (" ++ dq ++ "Debtor" ++ dq
      ++ ") and **" ++ or_str (secured_party data) "Secured Party" ++ "** ("
      ++ dq ++ "Secured Party" ++ dq ++ ").";
    EmptyString;
    "**1. GRANT OF SECURITY INTEREST.**";
    "Debtor hereby grants to Secured Party a security interest in the property described below ("
      ++ dq ++ "Collateral" ++ dq
      ++ ") to secure the payment and performance of the obligation described as: "
      ++ or_str (obligation data)
           ("Promissory Note dated " ++ or_str (date data) "even date herewith") ++ ".";
    EmptyString;
    "**2. COLLATERAL DESCRIPTION.**";
    "The Collateral consists of the following:";
    "> " ++ match collateral data with Some s => s | None => "undefined" end;
    EmptyString;
    "**3. PERFECTION.**";
    "Debtor authorizes Secured Party to file a financing statement (UCC-1) to perfect this Security Interest.";
    EmptyString;
    "**4. DEFAULT.**";
    "Upon default, Secured Party shall have all rights and remedies of a secured party under the Uniform Commercial Code of "
      ++ or_str (state data) "Delaware" ++ ".";
    EmptyString;
    "[SIGNATURE_FIELD:Debtor Authentication]";
    "**" ++ or_str (debtor data) "Debtor" ++ "**"
  ].

Definition bill_of_sale_text (env : FormEnv) (data : FormData) : string :=
  template [
    "# BILL OF SALE (UCC Article 2)";
    EmptyString;
    "**Seller:** " ++ or_str (seller data) "___";
    "**Buyer:** " ++ or_str (buyer data) "___";
    "**Date:** " ++ or_str (date data) (today env);
    "**Consideration:** $" ++ or_num env (amount data) "___";
    EmptyString;
    "FOR VALUE RECEIVED, Seller hereby sells, transfers, and conveys to Buyer the following goods (the "
      ++ dq ++ "Goods" ++ dq ++ "):";
    EmptyString;
    "**DESCRIPTION OF GOODS:**";
    or_str (goods_description data) "[Insert Description and Serial Numbers]";
    EmptyString;
    "**WARRANTIES:**";
    "Seller warrants that they have good and marketable title to the Goods, free of all liens and encumbrances. The Goods are sold "
      ++ dq ++ "AS-IS" ++ dq ++ " unless otherwise expressly stated.";
    EmptyString;
    "[SIGNATURE_FIELD:Seller]";
    "**" ++ or_str (seller data) "Seller" ++ "**";
    EmptyString;
    "[SIGNATURE_FIELD:Buyer]";
    "**" ++ or_str (buyer data) "Buyer" ++ "**"
  ].

Definition contractor_agreement_text (data : FormData) : string :=
  template [
    "# INDEPENDENT CONTRACTOR AGREEMENT";
    EmptyString;
    "This Agreement is made between **" ++ or_str (client data) "Client" ++ "** and **"
      ++ or_str (contractor data) "Contractor" ++ "**.";
    EmptyString;
    "**1. SERVICES.**";
    "Contractor agrees to perform the following services:";
    or_str (services data) "[Describe Services]";
    EmptyString;
    "**2. INDEPENDENT CONTRACTOR STATUS.**";
    "Contractor is an independent contractor, not an employee. Contractor is responsible for all taxes (including Self-Employment Tax). Client shall not withhold taxes or provide benefits.";
    EmptyString;
    "**3. WORK FOR HIRE.**";
    "All deliverables created under this Agreement shall be considered "
      ++ dq ++ "Work Made for Hire" ++ dq ++ " and shall be the sole property of the Client.";
    EmptyString;
    "**4. CONFIDENTIALITY.**";
    "Contractor acknowledges access to confidential information and agrees not to disclose such information to third parties.";
    EmptyString;
    "[SIGNATURE_FIELD:Contractor]";
    "**" ++ or_str (contractor data) "Contractor" ++ "**";
    EmptyString;
    "[SIGNATURE_FIELD:Client]";
    "**" ++ or_str (client data) "Client" ++ "**"
  ].

Definition security_blocked_text : string :=
  "> **GENERATION BLOCKED**: UCC 9-203 violation. Security Agreement must reasonably identify the collateral.".

Definition protocol_blocked_text (reason : string) : string :=
  "> **GENERATION BLOCKED**: Protocol Violation." ++ nl ++ "> Reason: " ++ reason.

(** [generateVerifiedForm type data], returning [(markdown, validation)]. *)
Definition generateVerifiedForm (env : FormEnv) (type : string) (data : FormData)
    : string * ValidationStep :=
  let unknown := {| rule_id := "FORM_GEN"; passed := false; details := "Unknown form type";
                    evidence_source := "System"; timestamp := now env;
                    generated_content := None |} in
  if String.eqb type "promissory_note_ucc" then
    let check := verifyNegotiability (now env)
                   {| promise_type := Unconditional; amount_type := Fixed;
                      currency := Some "USD"; payable_to := Order;
                      timing := if truthy_str (date data) then Definite else Demand;
                      other_undertakings := false |} in
    if passed check then (promissory_note_text env data, check)
    else (protocol_blocked_text (details check), check)
  else if String.eqb type "security_agreement_ucc" then
    let hasCollateral :=
      truthy_str (collateral data) &&
      match collateral data with
      | Some s => Nat.ltb 3 (String.length s)
      | None => false
      end in
    if hasCollateral then
      let law := consultStatute "UCC 9-203" in
      (security_agreement_text env data,
       {| rule_id := "UCC_9_203"; passed := true;
          details := "PASSED: Contains granting clause and collateral description (UCC 9-203).";
          evidence_source := or_str (citation law) "UCC Article 9";
          timestamp := now env; generated_content := None |})
    else
      (security_blocked_text,
       {| rule_id := "UCC_9_203"; passed := false;
          details := "FAILED: Missing sufficient description of Collateral (UCC 9-108).";
          evidence_source := "UCC Article 9";
          timestamp := now env; generated_content := None |})
  else if String.eqb type "bill_of_sale_ucc" then
    (bill_of_sale_text env data,
     {| rule_id := "UCC_2_201"; passed := true;
        details := "PASSED: Written memorandum of sale (UCC 2-201).";
        evidence_source := "UCC Article 2";
        timestamp := now env; generated_content := None |})
  else if String.eqb type "contractor_agreement" then
    (contractor_agreement_text data,
     {| rule_id := "COMMON_LAW_AGENCY"; passed := true;
        details := "PASSED: Explicitly defines Independent Contractor relationship.";
        evidence_source := "IRS Common Law Rules";
        timestamp := now env; generated_content := None |})
  else (EmptyString, unknown).

(* ------------------------------------------------------------------ *)
(** ** Audit ledger ([AuditProvider]: [addEntry], [clearLog]) *)

Module Ledger.

Inductive EntrySource := Advisor | Studio | System | Arbiter.
Inductive EntryStatus := Verified | Pending | Error | Refining.

Record ArbiterMetadata := mkMetadata {
  criticScore : option spec_float;
  latencyMs : option spec_float;
  complianceCheck : option bool;
  refinementIterations : option spec_float
}.

(** [timestamp] is the [Date] as milliseconds since the epoch. *)
Record AuditEntry := mkEntry {
  id : string;
  timestamp : Z;
  action : string;
  details : string;
  source : EntrySource;
  status : EntryStatus;
  hash : string;
  metadata : option ArbiterMetadata
}.

(** [ToInt32] *)
Definition toInt32 (x : Z) : Z := ((x + 2 ^ 31) mod 2 ^ 32) - 2 ^ 31.

(** One step of the loop of [generateHash]:
    [hash = (hash << 5) - hash + char; hash = hash & hash]. *)
Definition hash_step (h : Z) (c : ascii) : Z :=
  toInt32 (toInt32 (Z.shiftl h 5) - h + Z.of_nat (nat_of_ascii c)).

Fixpoint hash_loop (h : Z) (s : string) : Z :=
  match s with
  | EmptyString => h
  | String c r => hash_loop (hash_step h c) r
  end.

Definition hex_digit (d : Z) : ascii :=
  if (d <? 10)%Z then ascii_of_nat (48 + Z.to_nat d) else ascii_of_nat (87 + Z.to_nat d).

(** [n.toString(base)] for a non-negative integer, base 10 or 16. *)
Fixpoint digits_rev (fuel : nat) (base n : Z) (acc : string) : string :=
  match fuel with
  | O => acc
  | S f =>
      let acc' := String (hex_digit (n mod base)) acc in
      if (n <? base)%Z then acc' else digits_rev f base (n / base) acc'
  end.

Definition Z_to_string (base n : Z) : string := digits_rev 64 base n EmptyString.

(** [s.padStart(16, '0')] *)
Fixpoint zeros (k : nat) : string :=
  match k with O => EmptyString | S k' => String "0" (zeros k') end.
Definition padStart16 (s : string) : string := zeros (16 - String.length s) ++ s.

(** [generateHash str]; [rand8] is [Math.random().toString(16).substr(2, 8)]. *)
Definition generateHash (rand8 str : string) : string :=
  "0x" ++ padStart16 (Z_to_string 16 (Z.abs (hash_loop 0 str))) ++ rand8.

(** The values an [addEntry] or [clearLog] call reads from the clock and from
    [Math.random]: the [Date.now()] used in the id, the [new Date()] of the
    entry, the [Date.now()] fed to the hash and the two random suffixes. *)
Record Fresh := mkFresh {
  now_id : Z; now_entry : Z; now_hash : Z; rand_id : string; rand_hash : string
}.

Definition Ledger := list AuditEntry.

(** [addEntry]: [setEntries(prev => [newEntry, ...prev])]. *)
Definition addEntry (fr : Fresh) (action : string) (details : string) (source : EntrySource)
    (status : EntryStatus) (metadata : option ArbiterMetadata) (prev : Ledger) : Ledger :=
  let newEntry :=
    {| id := Z_to_string 10 (now_id fr) ++ rand_id fr;
       timestamp := now_entry fr;
       action := action;
       details := details;
       source := source;
       status := status;
       hash := generateHash (rand_hash fr) (action ++ details ++ Z_to_string 10 (now_hash fr));
       metadata := metadata |} in
  newEntry :: prev.

(** [clearLog]: the whole collection is replaced by one reboot entry. *)
Definition clearLog (fr : Fresh) (prev : Ledger) : Ledger :=
  [ {| id := "reboot-" ++ Z_to_string 10 (now_id fr);
       timestamp := now_entry fr;
       action := "System Reboot";
       details := "Audit Ledger flushed by user command. Clean state initialized.";
       source := System;
       status := Verified;
       hash := generateHash (rand_hash fr) ("reboot-" ++ Z_to_string 10 (now_hash fr));
       metadata := Some {| criticScore := Some (num_of_Z 1); latencyMs := None;
                           complianceCheck := Some true; refinementIterations := None |} |} ].

(** The initial state of [useState]. *)
Definition genesis (fr : Fresh) : Ledger :=
  [ {| id := "genesis";
       timestamp := now_entry fr;
       action := "ArbiterOS Initialization";
       details := "Governance ledger instantiated. Constitution loaded.";
       source := System;
       status := Verified;
       hash := generateHash (rand_hash fr) "genesis-block-governance";
       metadata := Some {| criticScore := Some (num_of_Z 1); latencyMs := None;
                           complianceCheck := Some true; refinementIterations := None |} |} ].

End Ledger.

(* ------------------------------------------------------------------ *)
(** ** [JSON.parse] *)

Module Json.

Set Warnings "-register-all".

(** Parsed values; numbers keep their lexeme, strings are sequences of
    UTF-16 code units, objects keep their members in source order. *)
Inductive json :=
| JNull
| JBool (b : bool)
| JNum (lexeme : list ascii)
| JStr (s : list N)
| JArr (xs : list json)
| JObj (members : list (list N * json)).

Definition code (c : ascii) : nat := nat_of_ascii c.
Definition is_char (k : nat) (c : ascii) : bool := Nat.eqb (code c) k.

Definition is_ws (c : ascii) : bool :=
  is_char 9 c || is_char 10 c || is_char 13 c || is_char 32 c.
Definition is_digit (c : ascii) : bool := (48 <=? code c)%nat && (code c <=? 57)%nat.

Fixpoint skip_ws (cs : list ascii) : list ascii :=
  match cs with
  | c :: r => if is_ws c then skip_ws r else cs
  | [] => []
  end.

Fixpoint span_digits (cs : list ascii) : list ascii * list ascii :=
  match cs with
  | c :: r => if is_digit c then let '(ds, r') := span_digits r in (c :: ds, r') else ([], cs)
  | [] => ([], [])
  end.

Definition hex_value (c : ascii) : option N :=
  let n := code c in
  if (48 <=? n)%nat && (n <=? 57)%nat then Some (N.of_nat (n - 48))
  else if (97 <=? n)%nat && (n <=? 102)%nat then Some (N.of_nat (n - 87))
  else if (65 <=? n)%nat && (n <=? 70)%nat then Some (N.of_nat (n - 55))
  else None.

(** [-]? ([0] | [1-9][0-9]* ) ([.][0-9]+)? ([eE][+-]?[0-9]+)? *)
Definition parse_number (cs : list ascii) : option (list ascii * list ascii) :=
  let '(sgn, r0) := match cs with
                    | c :: r => if is_char 45 c then ([c], r) else ([], cs)
                    | [] => ([], [])
                    end in
  match r0 with
  | [] => None
  | c :: r =>
      let int_part :=
        if is_char 48 c then Some ([c], r)
        else if is_digit c then let '(ds, r') := span_digits r in Some (c :: ds, r')
        else None in
      match int_part with
      | None => None
      | Some (ip, r1) =>
          let frac :=
            match r1 with
            | d :: r => if is_char 46 d then
                          match span_digits r with
                          | ([], _) => None
                          | (ds, r') => Some (d :: ds, r')
                          end
                        else Some ([], r1)
            | [] => Some ([], [])
            end in
          match frac with
          | None => None
          | Some (fp, r2) =>
              let expo :=
                match r2 with
                | e :: r => if is_char 101 e || is_char 69 e then
                              let '(es, r3) := match r with
                                               | s :: r' => if is_char 43 s || is_char 45 s
                                                            then ([s], r') else ([], r)
                                               | [] => ([], [])
                                               end in
                              match span_digits r3 with
                              | ([], _) => None
                              | (ds, r') => Some (e :: app es ds, r')
                              end
                            else Some ([], r2)
                | [] => Some ([], [])
                end in
              match expo with
              | None => None
              | Some (xp, r3) => Some (app sgn (app ip (app fp xp)), r3)
              end
          end
      end
  end.

(** The one-character escapes: quotation mark, reverse solidus, solidus,
    b, f, n, r and t. *)
Definition simple_escape (e : ascii) : option N :=
  match code e with
  | 34 => Some 34%N | 92 => Some 92%N | 47 => Some 47%N
  | 98 => Some 8%N | 102 => Some 12%N | 110 => Some 10%N
  | 114 => Some 13%N | 116 => Some 9%N
  | _ => None
  end.

Definition cons_opt (u : N) (r : option (list N * list ascii)) : option (list N * list ascii) :=
  match r with Some (s, rest) => Some (u :: s, rest) | None => None end.

(** The characters of a string literal after its opening quote, up to and
    including the closing quote. *)
Fixpoint parse_chars (cs : list ascii) : option (list N * list ascii) :=
  match cs with
  | [] => None
  | c :: r =>
      if is_char 34 c then Some ([], r)
      else if is_char 92 c then
        match r with
        | [] => None
        | e :: r1 =>
            match simple_escape e with
            | Some u => cons_opt u (parse_chars r1)
            | None =>
                if is_char 117 e then
                  match r1 with
                  | h1 :: h2 :: h3 :: h4 :: r2 =>
                      match hex_value h1, hex_value h2, hex_value h3, hex_value h4 with
                      | Some a, Some b, Some c', Some d =>
                          cons_opt (((a * 16 + b) * 16 + c') * 16 + d)%N (parse_chars r2)
                      | _, _, _, _ => None
                      end
                  | _ => None
                  end
                else None
            end
        end
      else if (code c <? 32)%nat then None
      else cons_opt (N.of_nat (code c)) (parse_chars r)
  end.

Definition literal (w : string) (cs : list ascii) : option (list ascii) :=
  let ws := list_ascii_of_string w in
  if list_eq_dec ascii_dec (firstn (List.length ws) cs) ws
  then Some (skipn (List.length ws) cs) else None.

(** A value, after leading white space. Every call consumes at least one
    character before it recurses, so [length + 1] units of fuel suffice
    ([JSON_parse] below). *)
Fixpoint parse_value (fuel : nat) (cs : list ascii) : option (json * list ascii) :=
  match fuel with
  | O => None
  | S f =>
      match skip_ws cs with
      | [] => None
      | c :: r =>
          if is_char 123 c then
            (* object *)
            match skip_ws r with
            | d :: r' =>
                if is_char 125 d then Some (JObj [], r')
                else
                  let fix members (g : nat) (cs0 : list ascii) (acc : list (list N * json))
                      : option (json * list ascii) :=
                    match g with
                    | O => None
                    | S g' =>
                        match skip_ws cs0 with
                        | q :: r0 =>
                            if is_char 34 q then
                              match parse_chars r0 with
                              | Some (k, r1) =>
                                  match skip_ws r1 with
                                  | col :: r2 =>
                                      if is_char 58 col then
                                        match parse_value f r2 with
                                        | Some (v, r3) =>
                                            match skip_ws r3 with
                                            | sep :: r4 =>
                                                if is_char 44 sep then members g' r4 (app acc [(k, v)])
                                                else if is_char 125 sep then Some (JObj (app acc [(k, v)]), r4)
                                                else None
                                            | [] => None
                                            end
                                        | None => None
                                        end
                                      else None
                                  | [] => None
                                  end
                              | None => None
                              end
                            else None
                        | [] => None
                        end
                    end in
                  members f r []
            | [] => None
            end
          else if is_char 91 c then
            (* array *)
            match skip_ws r with
            | d :: r' =>
                if is_char 93 d then Some (JArr [], r')
                else
                  let fix elems (g : nat) (cs0 : list ascii) (acc : list json)
                      : option (json * list ascii) :=
                    match g with
                    | O => None
                    | S g' =>
                        match parse_value f cs0 with
                        | Some (v, r3) =>
                            match skip_ws r3 with
                            | sep :: r4 =>
                                if is_char 44 sep then elems g' r4 (app acc [v])
                                else if is_char 93 sep then Some (JArr (app acc [v]), r4)
                                else None
                            | [] => None
                            end
                        | None => None
                        end
                    end in
                  elems f r []
            | [] => None
            end
          else if is_char 34 c then
            match parse_chars r with
            | Some (s, r') => Some (JStr s, r')
            | None => None
            end
          else if is_char 116 c then
            match literal "rue" r with Some r' => Some (JBool true, r') | None => None end
          else if is_char 102 c then
            match literal "alse" r with Some r' => Some (JBool false, r') | None => None end
          else if is_char 110 c then
            match literal "ull" r with Some r' => Some (JNull, r') | None => None end
          else if is_char 45 c || is_digit c then
            match parse_number (c :: r) with
            | Some (lx, r') => Some (JNum lx, r')
            | None => None
            end
          else None
      end
  end.

(** [JSON.parse]: [None] is the [SyntaxError] it throws. *)
Definition JSON_parse (s : string) : option json :=
  let cs := list_ascii_of_string s in
  match parse_value (S (List.length cs)) cs with
  | Some (v, rest) => match skip_ws rest with [] => Some v | _ => None end
  | None => None
  end.

Definition key (s : string) : list N := map (fun c => N.of_nat (code c)) (list_ascii_of_string s).

Fixpoint list_N_eqb (a b : list N) : bool :=
  match a, b with
  | [], [] => true
  | x :: a', y :: b' => N.eqb x y && list_N_eqb a' b'
  | _, _ => false
  end.

(** The own property [k] of a parsed object: the last member with that key. *)
Fixpoint member (k : list N) (ms : list (list N * json)) : option json :=
  match ms with
  | [] => None
  | (k', v) :: ms' =>
      match member k ms' with
      | Some w => Some w
      | None => if list_N_eqb k k' then Some v else None
      end
  end.

End Json.

(* ------------------------------------------------------------------ *)
(** ** Policy gate of the agent pipeline ([isNecessaryEnabled]) *)

Module AgentGate.
Import Json.

(** A call that either returns a value or throws. *)
Inductive Exc (A : Type) := Ok (a : A) | Throw (error : string).
Arguments Ok {A} a.
Arguments Throw {A} error.

(** An item of the run history; [item_output] is the recorded tool output. *)
Record HistoryItem := mkItem {
  item_type : string;
  item_name : option string;
  item_output : string
}.

Definition is_ordinary_result (item : HistoryItem) : bool :=
  String.eqb (item_type item) "function_call_result" &&
  match item_name item with
  | Some n => String.eqb n "is_ordinary_rule_checker"
  | None => false
  end.

(** [Array.prototype.pop] on the filtered copy: its last element. *)
Fixpoint pop {A} (xs : list A) : option A :=
  match xs with
  | [] => None
  | [x] => Some x
  | _ :: xs' => pop xs'
  end.

(** [output.passed === true]: a property read on [null] throws a
    [TypeError]; other non-objects have no [passed] property. *)
Definition passed_is_true (v : json) : Exc bool :=
  match v with
  | JNull => Throw "TypeError"
  | JObj ms => Ok (match member (key "passed") ms with Some (JBool true) => true | _ => false end)
  | _ => Ok false
  end.

(** [isNecessaryEnabled({ runContext })], with [runContext.history] given as
    [history] ([None] when it is [undefined]). *)
Definition isNecessaryEnabled (history : option (list HistoryItem)) : Exc bool :=
  let ordinaryResult :=
    match history with
    | Some h => pop (filter is_ordinary_result h)
    | None => None
    end in
  match ordinaryResult with
  | Some r =>
      if String.eqb (item_type r) "function_call_result" then
        match JSON_parse (item_output r) with
        | None => Throw "SyntaxError"
        | Some output =>
            match passed_is_true output with
            | Ok true => Ok true
            | Ok false => Ok false
            | Throw e => Throw e
            end
        end
      else Ok false
  | None => Ok false
  end.

End AgentGate.

(* ------------------------------------------------------------------ *)
(** ** Policy state of the chat session ([sendLegalMessage]) *)

Module SessionGate.

(** A function call requested by the model, with the arguments the code reads. *)
Inductive FunctionCall :=
| Call_verify_ordinary (naics_code expense_item : string)
| Call_verify_necessary (expense_amount business_revenue : spec_float)
| Call_other (name : string).

(** [toolsPolicyState.ordinaryPassed] after one call of the tool loop:
    [if (result.passed) toolsPolicyState.ordinaryPassed = true]. *)
Definition policy_step (now : string) (ordinaryPassed : bool) (call : FunctionCall) : bool :=
  match call with
  | Call_verify_ordinary n e =>
      if passed (verifyOrdinary now n e) then true else ordinaryPassed
  | _ => ordinaryPassed
  end.

Definition run_turn (now : string) (ordinaryPassed : bool) (calls : list FunctionCall) : bool :=
  fold_left (policy_step now) calls ordinaryPassed.

(** [getAllowedTools()], by declaration name. *)
Definition getAllowedTools (ordinaryPassed : bool) : list string :=
  ["verify_ordinary"; "verify_negotiability"; "analyze_clause_risks";
   "draft_verified_form"; "consult_statute"]
  ++ (if ordinaryPassed then ["verify_necessary"] else []).

Definition maxTurns : nat := 5.

(** The tool lists offered to the model by the successive [generateContent]
    calls of one [sendLegalMessage] run, given the function calls of each
    model turn (at most [maxTurns] of them are executed). *)
Fixpoint offered (now : string) (fuel : nat) (ordinaryPassed : bool)
    (turns : list (list FunctionCall)) : list (list string) :=
  getAllowedTools ordinaryPassed ::
  match fuel, turns with
  | S fuel', calls :: turns' =>
      match calls with
      | [] => []
      | _ :: _ => offered now fuel' (run_turn now ordinaryPassed calls) turns'
      end
  | _, _ => []
  end.

Definition sendLegalMessage_tools (now : string) (turns : list (list FunctionCall))
    : list (list string) :=
  offered now maxTurns false turns.

End SessionGate.

(* ------------------------------------------------------------------ *)
(** ** [JSON.stringify] of a verdict, as recorded in the run history *)

Module Stringify.

Definition hex4 (n : nat) : string :=
  "00" ++ String (Ledger.hex_digit (Z.of_nat (n / 16)%nat)) (String (Ledger.hex_digit (Z.of_nat (n mod 16)%nat)) EmptyString).

Definition escape_char (c : ascii) : string :=
  match nat_of_ascii c with
  | 34 => String "092"%char (String c EmptyString)
  | 92 => String "092"%char (String c EmptyString)
  | 8 => String "092"%char "b"
  | 12 => String "092"%char "f"
  | 10 => String "092"%char "n"
  | 13 => String "092"%char "r"
  | 9 => String "092"%char "t"
  | n => if (n <? 32)%nat then String "092"%char ("u" ++ hex4 n) else String c EmptyString
  end.

Fixpoint escape (s : string) : string :=
  match s with
  | EmptyString => EmptyString
  | String c r => escape_char c ++ escape r
  end.

Definition quote (s : string) : string := dq ++ escape s ++ dq.
Definition prop (k v : string) : string := quote k ++ ":" ++ v.

(** [JSON.stringify(step)] with the properties in declaration order. *)
Definition stringify_step (v : ValidationStep) : string :=
  "{" ++ join "," ([prop "rule_id" (quote (rule_id v));
                    prop "passed" (if passed v then "true" else "false");
                    prop "details" (quote (details v));
                    prop "evidence_source" (quote (evidence_source v));
                    prop "timestamp" (quote (timestamp v))]
                   ++ match generated_content v with
                      | Some g => [prop "generated_content" (quote g)]
                      | None => []
                      end) ++ "}".

End Stringify.

(* ------------------------------------------------------------------ *)
(** ** Contract risk scan ([analyzeContractRisks]) *)

Definition risk_arbitration : string :=
  "CRITICAL: Mandatory arbitration/waiver clauses require scrutiny under Federal Arbitration Act (9 U.S.C. "
  ++ sect ++ " 1 et seq).".
Definition risk_indemnity : string :=
  "HIGH: Indemnification for gross negligence is often void against public policy per Restatement (Second) of Contracts.".
Definition risk_perpetuity : string :=
  "MEDIUM: Perpetual terms in service contracts are generally disfavored in common law.".
Definition risk_penalty : string :=
  "HIGH: Punitive penalties are generally unenforceable (UCC " ++ sect ++ " 2-718 requires reasonableness).".
Definition risk_cognovit_fallback : string :=
  "CRITICAL: Confession of Judgment clauses are prohibited in consumer contracts (16 CFR 444.2).".

(** A template-literal substitution [${x}] of an optional string. *)
Definition subst_opt (a : option string) : string :=
  match a with Some s => s | None => "undefined" end.

(** The [risks] array of [analyzeContractRisks], in the order it is filled. *)
Definition contract_risks (clauseText docType : string) : list string :=
  let lowerText := toLowerCase clauseText in
  let r1 := push_if (includes lowerText "waive all rights" || includes lowerText "waive jury trial"
                     || includes lowerText "arbitration") risk_arbitration [] in
  let r2 := push_if ((includes lowerText "indemnify" || includes lowerText "hold harmless")
                     && includes lowerText "gross negligence") risk_indemnity r1 in
  let r3 := push_if (includes lowerText "perpetuity" && includes docType "service")
                    risk_perpetuity r2 in
  let r4 := push_if (includes lowerText "penalty" && negb (includes lowerText "liquidated damages"))
                    risk_penalty r3 in
  if includes lowerText "confession of judgment" || includes lowerText "cognovit" then
    let ftcRule := consultStatute "FTC Credit Rule" in
    if found ftcRule
    then r4 ++ ["CRITICAL: Prohibited in consumer contracts. Source: " ++ subst_opt (citation ftcRule)]
    else r4 ++ [risk_cognovit_fallback]
  else r4.

(** [analyzeContractRisks clauseText docType]. *)
Definition analyzeContractRisks (now clauseText docType : string) : ValidationStep :=
  let risks := contract_risks clauseText docType in
  let passed := Nat.eqb (List.length risks) 0 in
  {| rule_id := "RISK_SCAN_USC_UCC";
     passed := passed;
     details := if passed then "CLEAN: No critical statutory risks identified in extracted clause."
                else "RISK ALERT: " ++ join " | " risks;
     evidence_source := "USC Title 15, UCC & CFR Title 16";
     timestamp := now;
     generated_content := None |}.

(* ------------------------------------------------------------------ *)
(** ** The ordinary-expense tool of the agent pipeline ([isOrdinaryTool]) *)

(** [isOrdinaryTool.execute] of [LegalPackages/auditor.ts.tsx]; its database
    client is a copy of the one of the engine, with the same endpoint. *)
Definition isOrdinaryTool_execute (now naics_code expense_item_category : string) : ValidationStep :=
  let '(is_ordinary, source) := query ircEndpoint naics_code expense_item_category in
  if includes source "Failed" then
    {| rule_id := "rule_is_ordinary";
       passed := false;
       details := "Failed: Industry (NAICS code " ++ naics_code ++ ") not found in precedent database.";
       evidence_source := source;
       timestamp := now;
       generated_content := None |}
  else
    {| rule_id := "rule_is_ordinary";
       passed := is_ordinary;
       details :=
         if is_ordinary
         then "PASSED: '" ++ expense_item_category ++ "' is a verifiable " ++ dq ++ "ordinary"
              ++ dq ++ " expense under IRC Sec 162(a) for NAICS code " ++ naics_code ++ "."
         else "FAILED: '" ++ expense_item_category ++ "' is NOT a verifiable " ++ dq ++ "ordinary"
              ++ dq ++ " expense under IRC Sec 162(a) for NAICS code " ++ naics_code ++ ".";
       evidence_source := source;
       timestamp := now;
       generated_content := None |}.

(* ------------------------------------------------------------------ *)
(** ** The [draft_verified_form] tool call of [sendLegalMessage] *)

(** [result = formResult.validation; if (formResult.validation.passed)
    result.generated_content = formResult.markdown]: the tool response sent
    back to the model. *)
Definition draft_verified_form_result (env : FormEnv) (form_type : string) (data : FormData)
    : ValidationStep :=
  let '(markdown, validation) := generateVerifiedForm env form_type data in
  if passed validation then
    {| rule_id := rule_id validation; passed := passed validation;
       details := details validation; evidence_source := evidence_source validation;
       timestamp := timestamp validation; generated_content := Some markdown |}
  else validation.

(* ------------------------------------------------------------------ *)
(** ** The critic pass ([runArbiterAudit]) *)

Module Critic.
Import Json AgentGate.

(** The digits of a JSON number lexeme as one integer, with the number of
    digits after the decimal point, and the rest of the lexeme. *)
Fixpoint lex_mant (cs : list ascii) (d scale : Z) (frac : bool) : Z * Z * list ascii :=
  match cs with
  | c :: r =>
      if is_digit c then
        lex_mant r (10 * d + (Z.of_nat (code c) - 48))%Z (if frac then (scale + 1)%Z else scale) frac
      else if is_char 46 c then lex_mant r d scale true
      else (d, scale, cs)
  | [] => (d, scale, [])
  end.

(** The exponent part [e], [E] with an optional sign. *)
Definition lex_exp (cs : list ascii) : Z :=
  match cs with
  | _ :: r =>
      let '(neg, ds) := match r with
                        | s :: r' => if is_char 45 s then (true, r')
                                     else if is_char 43 s then (false, r') else (false, r)
                        | [] => (false, [])
                        end in
      let x := fold_left (fun a d => (10 * a + (Z.of_nat (code d) - 48))%Z) ds 0%Z in
      if neg then (- x)%Z else x
  | [] => 0%Z
  end.

(** The magnitude of the decimal number a lexeme denotes. *)
Definition lexeme_abs (lx : list ascii) : Q :=
  let body := match lx with c :: r => if is_char 45 c then r else lx | [] => [] end in
  let '(d, scale, rest) := lex_mant body 0 0 false in
  (inject_Z d * Qpower (inject_Z 10) (lex_exp rest - scale))%Q.

(** [ToBoolean] of a parsed value. A number is falsy when it converts to
    [+0] or [-0]: a decimal rounds to zero in binary64 exactly when its
    magnitude is at most half the least subnormal, 2^-1075 (the tie goes to
    the even significand 0). *)
Definition json_truthy (v : json) : bool :=
  match v with
  | JNull => false
  | JBool b => b
  | JNum lx => negb (Qle_bool (lexeme_abs lx) (Qpower (inject_Z 2) (-1075)))
  | JStr s => match s with [] => false | _ => true end
  | JArr _ | JObj _ => true
  end.

(** The values the critic response carries: a parsed JSON value, or a
    number or string the code supplies. *)
Inductive JSValue := JSJson (v : json) | JSNum (x : spec_float) | JSStr (s : string).

Record CriticResponse := mkCritic { score : JSValue; critique : JSValue }.

(** [x.k] for a parsed value [x]: reading a property of [null] throws a
    [TypeError]; primitives, arrays and objects without the own member have
    no such property. *)
Definition get_prop (v : json) (k : string) : Exc (option json) :=
  match v with
  | JNull => Throw "TypeError"
  | JObj ms => Ok (member (key k) ms)
  | _ => Ok None
  end.

(** [a || b] *)
Definition or_js (a : option json) (b : JSValue) : JSValue :=
  match a with
  | Some v => if json_truthy v then JSJson v else b
  | None => b
  end.

(** The number literal [0.95]: the binary64 value nearest to 95/100, which
    is the correctly rounded quotient of 95 by 100. *)
Definition js_0_95 : spec_float := js_div (num_of_Z 95) (num_of_Z 100).

Definition bypass : CriticResponse :=
  {| score := JSNum (num_of_Z 1); critique := JSStr "Audit bypass: System optimal." |}.

(** [runArbiterAudit(adviceText)]. The advice only enters the prompt; the
    input is the outcome of [generateContent]: [Throw] when it rejects, else
    [Ok text] with [text] the [response.text] ([None] when undefined). *)
Definition runArbiterAudit (response : Exc (option string)) : CriticResponse :=
  match response with
  | Throw _ => bypass
  | Ok text =>
      match JSON_parse (or_str text "{}") with
      | None => bypass
      | Some result =>
          match get_prop result "score" with
          | Throw _ => bypass
          | Ok s =>
              match get_prop result "critique" with
              | Throw _ => bypass
              | Ok c => {| score := or_js s (JSNum js_0_95);
                           critique := or_js c (JSStr "Verified compliant.") |}
              end
          end
      end
  end.

End Critic.

(* ------------------------------------------------------------------ *)
(** ** Ledger statistics of the audit view ([AuditLog]) *)

Module AuditStats.
Import Ledger.

(** [ToBoolean] of a number. *)
Definition float_truthy (x : spec_float) : bool :=
  match x with S754_zero _ | S754_nan => false | _ => true end.

(** [e.metadata?.criticScore] *)
Definition critic_score (e : AuditEntry) : option spec_float :=
  match metadata e with Some m => criticScore m | None => None end.

(** [entries.filter(e => e.metadata?.criticScore).length] *)
Definition totalAudited (entries : list AuditEntry) : nat :=
  List.length (filter (fun e => match critic_score e with
                                | Some x => float_truthy x
                                | None => false
                                end) entries).

(** [entries.filter(e => e.metadata?.criticScore &&
    e.metadata.criticScore < confidenceThreshold).length] *)
Definition belowThreshold (confidenceThreshold : spec_float) (entries : list AuditEntry) : nat :=
  List.length (filter (fun e => match critic_score e with
                                | Some x => float_truthy x && SFltb x confidenceThreshold
                                | None => false
                                end) entries).

Definition status_name (s : EntryStatus) : string :=
  match s with
  | Verified => "Verified" | Pending => "Pending" | Error => "Error" | Refining => "Refining"
  end.

(** The accumulator object of [statusCounts], as its own properties in
    insertion order. *)
Fixpoint lookup (k : string) (acc : list (string * nat)) : option nat :=
  match acc with
  | [] => None
  | (k', n) :: acc' => if String.eqb k k' then Some n else lookup k acc'
  end.

Fixpoint set_prop (k : string) (n : nat) (acc : list (string * nat)) : list (string * nat) :=
  match acc with
  | [] => [(k, n)]
  | (k', m) :: acc' => if String.eqb k k' then (k', n) :: acc' else (k', m) :: set_prop k n acc'
  end.

(** [acc[k] || 0] *)
Definition get_or_zero (k : string) (acc : list (string * nat)) : nat :=
  match lookup k acc with Some n => n | None => 0 end.

(** [entries.reduce((acc, curr) => { acc[curr.status] = (acc[curr.status] || 0) + 1;
    return acc; }, {})] *)
Definition statusCounts (entries : list AuditEntry) : list (string * nat) :=
  fold_left (fun acc e => set_prop (status_name (status e))
                                   (get_or_zero (status_name (status e)) acc + 1) acc)
            entries [].

(** [statusChart]: (name, value, color), the entries with a zero value
    filtered out. *)
Definition statusChart (entries : list AuditEntry) : list (string * nat * string) :=
  let c := statusCounts entries in
  filter (fun '(_, v, _) => Nat.ltb 0 v)
    [("Verified", get_or_zero "Verified" c, "#ffffff");
     ("Pending", get_or_zero "Pending" c, "#525252");
     ("Refining", get_or_zero "Refining" c, "#a3a3a3");
     ("Error", get_or_zero "Error" c, "#ef4444")].

End AuditStats.

(* ================================================================== *)
(** * Properties *)

(* ------------------------------------------------------------------ *)
(** ** String lemmas *)

Lemma str_app_assoc (a b c : string) : (a ++ b) ++ c = a ++ (b ++ c).
Proof. induction a as [|x a IH]; simpl; [reflexivity | now rewrite IH]. Qed.

Lemma str_app_nil_r (a : string) : a ++ EmptyString = a.
Proof. induction a as [|x a IH]; simpl; [reflexivity | now rewrite IH]. Qed.

Lemma startsWith_spec (s p : string) :
  startsWith s p = true <-> exists rest, s = p ++ rest.
Proof.
  revert s; induction p as [|c p IH]; intros s.
  - split; [intros _; now exists s | destruct s; reflexivity].
  - destruct s as [|d s]; simpl.
    + split; [discriminate | intros [rest H]; discriminate].
    + rewrite andb_true_iff, IH; split.
      * intros [Hc [rest ->]]. apply Ascii.eqb_eq in Hc as ->. now exists rest.
      * intros [rest H]. injection H as -> ->. split; [apply Ascii.eqb_refl | now exists rest].
Qed.

(** [includes s p] holds exactly when [p] occurs in [s]. *)
Lemma includes_spec (s p : string) :
  includes s p = true <-> exists pre post, s = pre ++ p ++ post.
Proof.
  induction s as [|c s IH]; cbn [includes]; rewrite orb_true_iff, startsWith_spec.
  - split.
    + intros [[rest H] | H]; [exists EmptyString, rest; exact H | discriminate].
    + intros [pre [post H]]. left. destruct pre; [now exists post | discriminate].
  - rewrite IH. split.
    + intros [[rest H] | [pre [post H]]].
      * now exists EmptyString, rest.
      * exists (String c pre), post. now rewrite H.
    + intros [pre [post H]]. destruct pre as [|d pre]; simpl in H.
      * left. now exists post.
      * right. injection H as -> H. now exists pre, post.
Qed.

Lemma includes_trans (s m p : string) :
  includes s m = true -> includes m p = true -> includes s p = true.
Proof.
  rewrite !includes_spec. intros [a [b ->]] [c [d ->]].
  exists (a ++ c), (d ++ b). now rewrite !str_app_assoc.
Qed.

Lemma join_includes (sep x : string) (xs : list string) :
  In x xs -> includes (join sep xs) x = true.
Proof.
  intros Hin. apply includes_spec.
  induction xs as [|y xs IH]; [destruct Hin |].
  destruct Hin as [-> | Hin].
  - destruct xs as [|z xs].
    + exists EmptyString, EmptyString. simpl. now rewrite str_app_nil_r.
    + exists EmptyString, (sep ++ join sep (z :: xs)). reflexivity.
  - destruct xs as [|z xs]; [destruct Hin |].
    destruct (IH Hin) as [pre [post H]].
    exists (y ++ sep ++ pre), post.
    change (join sep (y :: z :: xs)) with (y ++ sep ++ join sep (z :: xs)).
    now rewrite H, !str_app_assoc.
Qed.

(* ------------------------------------------------------------------ *)
(** ** Ordinary-expense checker *)

(** C5: the Ordinary-Expense checker is fail-closed. It passes exactly when
    the NAICS code is ['238350'] and the lower-cased expense is one of the
    listed carpenter items; every other pair fails. In particular
    [verify_ordinary('238350', 'truck')] passes and
    [verify_ordinary('238350', 'laptop')] fails. *)
Theorem verifyOrdinary_fail_closed (now naics expense : string) :
  (passed (verifyOrdinary now naics expense) = true <->
     naics = "238350" /\ In (toLowerCase expense) carpenter_items) /\
  passed (verifyOrdinary now "238350" "truck") = true /\
  passed (verifyOrdinary now "238350" "laptop") = false.
Proof.
  split; [| split; reflexivity].
  unfold verifyOrdinary, query, array_includes.
  destruct (String.eqb naics "238350") eqn:Hn;
    destruct (existsb (String.eqb (toLowerCase expense)) carpenter_items) eqn:Hi;
    simpl; rewrite String.eqb_eq in Hn || rewrite String.eqb_neq in Hn.
  - split; [intros _ | reflexivity]. split; [exact Hn |].
    apply existsb_exists in Hi as [x [Hx Heq]]. apply String.eqb_eq in Heq. now subst.
  - split; [discriminate |]. intros [_ Hin].
    assert (existsb (String.eqb (toLowerCase expense)) carpenter_items = true) as Hc
      by (apply existsb_exists; exists (toLowerCase expense); split; [exact Hin | apply String.eqb_refl]).
    congruence.
  - split; [discriminate | intros [H _]; contradiction].
  - split; [discriminate | intros [H _]; contradiction].
Qed.

(* ------------------------------------------------------------------ *)
(** ** Necessity-ratio checker *)

Module FloatFacts.
Local Open Scope Z_scope.

(** Correct rounding of [SFdiv] on binary64, proved from its definition:
    [SFdiv_core_binary] computes an integer quotient [q] with a location (the
    position of the exact quotient between [q] and [q + 1]), and
    [binary_round_aux] shifts it to a canonical exponent and rounds it to
    nearest, ties to even. *)

Definition p2 (e : Z) : Q := Qpower (inject_Z 2) e.

Lemma digits2_pos_size p : digits2_pos p = Pos.size p.
Proof. induction p; simpl; rewrite ?IHp; reflexivity. Qed.

Lemma Zdigits2_log2 m : 0 < m -> Zdigits2 m = Z.log2 m + 1.
Proof.
  intros Hm. destruct m as [|p|p]; try lia. simpl. rewrite digits2_pos_size.
  destruct p; simpl; try rewrite Pos2Z.inj_succ; lia.
Qed.

Lemma Zdigits2_0 : Zdigits2 0 = 0.
Proof. reflexivity. Qed.

Lemma Zdigits2_lt m : 0 <= m -> m < 2 ^ Zdigits2 m.
Proof.
  intros Hm. destruct (Z.eq_dec m 0) as [->|Hn]; [reflexivity|].
  rewrite Zdigits2_log2 by lia. apply Z.log2_spec. lia.
Qed.

Lemma Zdigits2_ge m : 0 < m -> 2 ^ (Zdigits2 m - 1) <= m.
Proof.
  intros Hm. rewrite Zdigits2_log2 by lia. replace (Z.log2 m + 1 - 1) with (Z.log2 m) by lia.
  apply Z.log2_spec. lia.
Qed.

Lemma Zdigits2_nonneg m : 0 <= Zdigits2 m.
Proof. destruct m; simpl; lia. Qed.

Lemma Zdigits2_le m k : 0 <= m -> 0 <= k -> m < 2 ^ k -> Zdigits2 m <= k.
Proof.
  intros Hm Hk Hlt. destruct (Z.eq_dec m 0) as [->|Hn]; [simpl; lia|].
  rewrite Zdigits2_log2 by lia.
  assert (Z.log2 m < k) by (apply Z.log2_lt_pow2; lia). lia.
Qed.

Lemma Zdigits2_gt m k : 0 <= k -> 2 ^ k <= m -> k < Zdigits2 m.
Proof.
  intros Hk Hle. assert (0 < m) by (pose proof (Z.pow_pos_nonneg 2 k); lia).
  rewrite Zdigits2_log2 by lia.
  assert (k <= Z.log2 m) by (apply Z.log2_le_pow2; lia). lia.
Qed.



(** [rep Y mrs]: the scaled value [Y] lies at [shr_m mrs] plus the fraction
    encoded by the round and sticky bits. *)
Definition inbetween (Y : Q) (m : Z) (l : location) : Prop :=
  match l with
  | loc_Exact => (Y == inject_Z m)%Q
  | loc_Inexact Lt => (inject_Z m < Y /\ Y < inject_Z m + (1#2))%Q
  | loc_Inexact Eq => (Y == inject_Z m + (1#2))%Q
  | loc_Inexact Gt => (inject_Z m + (1#2) < Y /\ Y < inject_Z m + 1)%Q
  end.

Definition rep (Y : Q) (mrs : shr_record) : Prop :=
  inbetween Y (shr_m mrs) (loc_of_shr_record mrs).

Lemma rep_of_loc Y m l : rep Y (shr_record_of_loc m l) <-> inbetween Y m l.
Proof. destruct l as [|[| |]]; reflexivity. Qed.

Lemma inbetween_bounds Y m l :
  inbetween Y m l -> (inject_Z m <= Y /\ Y < inject_Z m + 1)%Q.
Proof. destruct l as [|[| |]]; simpl; intros; lra. Qed.

Lemma rep_compat Y Y' mrs : (Y == Y')%Q -> rep Y mrs -> rep Y' mrs.
Proof.
  unfold rep. destruct (loc_of_shr_record mrs) as [|[| |]]; simpl; intros; lra.
Qed.

Lemma inject_Z_xO p : (inject_Z (Zpos p~0) == 2 * inject_Z (Zpos p))%Q.
Proof. rewrite Pos2Z.inj_xO, inject_Z_mult. reflexivity. Qed.

Lemma inject_Z_xI p : (inject_Z (Zpos p~1) == 2 * inject_Z (Zpos p) + 1)%Q.
Proof. rewrite Pos2Z.inj_xI, inject_Z_plus, inject_Z_mult. reflexivity. Qed.

Lemma shr_1_correct Y Y' mrs :
  0 <= shr_m mrs -> (Y == 2 * Y')%Q -> rep Y mrs ->
  rep Y' (shr_1 mrs) /\ 0 <= shr_m (shr_1 mrs).
Proof.
  destruct mrs as [m r s]. unfold rep. intros Hm HY Hrep.
  destruct m as [|[p|p|]|p]; [| | | |cbn in Hm; lia];
    destruct r, s;
    cbn [shr_1 shr_m shr_r shr_s loc_of_shr_record inbetween orb] in *;
    rewrite ?inject_Z_xI, ?inject_Z_xO in Hrep;
    (split; [|lia]);
    change (inject_Z 0) with 0%Q in *; change (inject_Z 1) with 1%Q in *; lra.
Qed.

Lemma iter_shr_1_correct n : forall Y Y' mrs,
  0 <= shr_m mrs -> (Y == inject_Z (2 ^ Zpos n) * Y')%Q -> rep Y mrs ->
  rep Y' (iter_pos shr_1 n mrs) /\ 0 <= shr_m (iter_pos shr_1 n mrs).
Proof.
  induction n as [n IH|n IH|]; intros Y Y' mrs Hm HY Hrep; cbn [iter_pos].
  - destruct (shr_1_correct Y (inject_Z (2 ^ Zpos n) * (inject_Z (2 ^ Zpos n) * Y'))%Q mrs)
      as [H1 H1m]; auto.
    { rewrite HY. replace (2 ^ Zpos n~1) with (2 * (2 ^ Zpos n * 2 ^ Zpos n)).
      - rewrite !inject_Z_mult. ring.
      - rewrite Pos2Z.inj_xI. replace (2 * Zpos n + 1) with (Zpos n + Zpos n + 1) by lia.
        rewrite !Z.pow_add_r by lia. ring. }
    destruct (IH _ (inject_Z (2 ^ Zpos n) * Y')%Q _ H1m (Qeq_refl _) H1) as [H2 H2m].
    exact (IH _ Y' _ H2m (Qeq_refl _) H2).
  - destruct (IH Y (inject_Z (2 ^ Zpos n) * Y')%Q mrs) as [H1 H1m]; auto.
    { rewrite HY. replace (2 ^ Zpos n~0) with (2 ^ Zpos n * 2 ^ Zpos n).
      - rewrite !inject_Z_mult. ring.
      - rewrite (Pos2Z.inj_xO n). replace (2 * Zpos n) with (Zpos n + Zpos n) by lia.
        rewrite !Z.pow_add_r by lia. ring. }
    exact (IH _ Y' _ H1m (Qeq_refl _) H1).
  - apply (shr_1_correct Y); auto.
Qed.

Lemma shr_correct Y Y' mrs e n :
  0 <= shr_m mrs -> 0 <= n -> (Y == inject_Z (2 ^ n) * Y')%Q -> rep Y mrs ->
  rep Y' (fst (shr mrs e n)) /\ 0 <= shr_m (fst (shr mrs e n)) /\ snd (shr mrs e n) = e + n.
Proof.
  intros Hm Hn HY Hrep. destruct n as [|p|p]; [ | | lia]; cbn [shr fst snd].
  - split; [|split; [assumption|lia]].
    apply (rep_compat Y); auto. rewrite HY. change (inject_Z (2 ^ 0)) with 1%Q. ring.
  - destruct (iter_shr_1_correct p Y Y' mrs) as [H1 H2]; auto.
Qed.

Lemma round_nearest_even_correct Y mrs :
  rep Y mrs ->
  let N := round_nearest_even (shr_m mrs) (loc_of_shr_record mrs) in
  (inject_Z N - (1#2) <= Y /\ Y <= inject_Z N + (1#2))%Q /\
  (((Y == inject_Z N - (1#2)) \/ (Y == inject_Z N + (1#2)))%Q -> Z.even N = true) /\
  (N = shr_m mrs \/ N = shr_m mrs + 1).
Proof.
  destruct mrs as [m r s]. unfold rep. intros Hrep.
  destruct r, s; cbn [shr_m loc_of_shr_record round_nearest_even inbetween] in *.
  - rewrite inject_Z_plus. change (inject_Z 1) with 1%Q.
    split; [lra|]. split; [intros; exfalso; lra|right; reflexivity].
  - destruct (Z.even m) eqn:He.
    + split; [lra|]. split; [intros _; exact He|left; reflexivity].
    + rewrite inject_Z_plus. change (inject_Z 1) with 1%Q.
      split; [lra|]. split; [|right; reflexivity].
      intros _. rewrite Z.even_add, He. reflexivity.
  - split; [lra|]. split; [intros; exfalso; lra|left; reflexivity].
  - split; [lra|]. split; [intros; exfalso; lra|left; reflexivity].
Qed.

Lemma rep_int k mrs : rep (inject_Z k) mrs -> shr_m mrs = k.
Proof.
  destruct mrs as [m r s]. unfold rep.
  destruct r, s; cbn [shr_m loc_of_shr_record inbetween];
    unfold Qeq, Qlt, Qplus, inject_Z; cbn [Qnum Qden]; intros; lia.
Qed.

Definition fexp64 := fexp prec64 emax64.

Lemma fexp64_eq e : fexp64 e = Z.max (e - 53) (-1074).
Proof. reflexivity. Qed.

(** A canonical binary64 mantissa/exponent pair. *)
Definition canon (M E : Z) : Prop :=
  M < 2 ^ 53 /\ -1074 <= E /\ (E = -1074 \/ 2 ^ 52 <= M).

Lemma canon_iff M E : 0 <= M -> (E = fexp64 (Zdigits2 M + E) <-> canon M E).
Proof.
  intros HM. unfold canon. rewrite fexp64_eq. split.
  - intros HE. assert (Hd : Zdigits2 M <= 53) by lia.
    pose proof (Zdigits2_lt M HM) as Hlt.
    assert (2 ^ Zdigits2 M <= 2 ^ 53) by (apply Z.pow_le_mono_r; lia).
    split; [lia|]. split; [lia|].
    destruct (Z.eq_dec E (-1074)) as [|Hne]; [left; assumption|right].
    assert (Zdigits2 M = 53) as Hd53 by lia.
    assert (0 < M) by (destruct (Z.eq_dec M 0) as [->|]; [discriminate|lia]).
    pose proof (Zdigits2_ge M ltac:(lia)) as Hge. rewrite Hd53 in Hge. exact Hge.
  - intros [Hlt [Hmin Hc]]. assert (Zdigits2 M <= 53) by (apply Zdigits2_le; lia).
    destruct Hc as [->|Hc]; [lia|].
    assert (52 < Zdigits2 M) by (apply Zdigits2_gt; lia). lia.
Qed.

Lemma Qinject_pow_pos n : 0 <= n -> (0 < inject_Z (2 ^ n))%Q.
Proof.
  intros Hn. change 0%Q with (inject_Z 0). rewrite <- Zlt_Qlt. apply Z.pow_pos_nonneg; lia.
Qed.

(** The integer parts of [Y] and of [Y / P]. *)
Lemma floor_shift (P m q : Z) (Y Y1 : Q) :
  0 < P -> (Y == inject_Z P * Y1)%Q ->
  (inject_Z m <= Y /\ Y < inject_Z m + 1)%Q ->
  (inject_Z q <= Y1 /\ Y1 < inject_Z q + 1)%Q ->
  P * q <= m /\ m < P * (q + 1).
Proof.
  intros HP HY [Hm1 Hm2] [Hq1 Hq2].
  assert (HPQ : (0 < inject_Z P)%Q) by (change 0%Q with (inject_Z 0); rewrite <- Zlt_Qlt; lia).
  split.
  - assert (P * q < m + 1); [|lia].
    rewrite Zlt_Qlt, inject_Z_mult, inject_Z_plus. change (inject_Z 1) with 1%Q.
    rewrite HY in Hm2. nra.
  - rewrite Zlt_Qlt, inject_Z_mult, inject_Z_plus. change (inject_Z 1) with 1%Q.
    rewrite HY in Hm1. nra.
Qed.

Lemma shr_fexp_correct mx ex lx Y :
  0 <= mx -> ex <= fexp64 (Zdigits2 mx + ex) -> inbetween Y mx lx ->
  exists Y1,
    rep Y1 (fst (shr_fexp prec64 emax64 mx ex lx)) /\
    0 <= shr_m (fst (shr_fexp prec64 emax64 mx ex lx)) /\
    ex <= snd (shr_fexp prec64 emax64 mx ex lx) /\
    (Y == inject_Z (2 ^ (snd (shr_fexp prec64 emax64 mx ex lx) - ex)) * Y1)%Q /\
    canon (shr_m (fst (shr_fexp prec64 emax64 mx ex lx)))
          (snd (shr_fexp prec64 emax64 mx ex lx)).
Proof.
  intros Hmx Hex Hin. unfold shr_fexp. fold (fexp64 (Zdigits2 mx + ex)).
  set (d := Zdigits2 mx) in *. set (n1 := fexp64 (d + ex) - ex).
  assert (Hn1 : 0 <= n1) by (unfold n1; lia).
  pose proof (Qinject_pow_pos n1 Hn1) as HP.
  set (Y1 := (Y / inject_Z (2 ^ n1))%Q).
  assert (HY : (Y == inject_Z (2 ^ n1) * Y1)%Q).
  { unfold Y1. field. intros H; rewrite H in HP; discriminate. }
  destruct (shr_correct Y Y1 (shr_record_of_loc mx lx) ex n1) as [Hrep [Hm He]];
    [destruct lx as [|[| |]]; exact Hmx|exact Hn1|exact HY|apply rep_of_loc; exact Hin|].
  exists Y1. rewrite He. replace (ex + n1 - ex) with n1 by lia.
  split; [exact Hrep|]. split; [exact Hm|]. split; [lia|]. split; [exact HY|].
  set (q := shr_m (fst (shr (shr_record_of_loc mx lx) ex n1))) in *.
  assert (HPz : 0 < 2 ^ n1) by (apply Z.pow_pos_nonneg; lia).
  destruct (floor_shift (2 ^ n1) mx q Y Y1 HPz HY (inbetween_bounds _ _ _ Hin)
              (inbetween_bounds _ _ _ Hrep)) as [Hq1 Hq2].
  pose proof (Zdigits2_lt mx Hmx) as Hd. fold d in Hd.
  pose proof (Zdigits2_nonneg mx) as Hd0. fold d in Hd0.
  assert (Hn1def : n1 = Z.max (d + ex - 53) (-1074) - ex) by (unfold n1; rewrite fexp64_eq; reflexivity).
  clearbody n1. rewrite fexp64_eq in Hex.
  assert (Hsplit : 2 ^ d <= 2 ^ 53 * 2 ^ n1).
  { rewrite <- Z.pow_add_r by lia. apply Z.pow_le_mono_r; lia. }
  unfold canon. split; [nia|]. split; [lia|].
  destruct (Z.eq_dec (ex + n1) (-1074)) as [|Hne]; [left; assumption|right].
  assert (Hn1' : n1 = d - 53) by lia.
  assert (0 < mx) by (destruct (Z.eq_dec mx 0) as [Hz|]; [subst d; rewrite Hz in *; simpl in *; lia|lia]).
  pose proof (Zdigits2_ge mx ltac:(lia)) as Hge. fold d in Hge.
  replace (d - 1) with (52 + n1) in Hge by lia. rewrite Z.pow_add_r in Hge by lia.
  nia.
Qed.

(** The value [binary_round_aux] builds from a mantissa [M] and exponent [E]. *)
Definition round_result (sx : bool) (M E : Z) : spec_float :=
  match M with
  | Z0 => S754_zero sx
  | Zpos m => if Z.leb E (emax64 - prec64) then S754_finite sx m E else S754_infinity sx
  | Zneg _ => S754_nan
  end.

Lemma round_aux_correct sx mx ex lx Y :
  0 <= mx -> ex <= fexp64 (Zdigits2 mx + ex) -> inbetween Y mx lx ->
  exists M E Z0,
    0 <= M /\ canon M E /\ ex <= E /\
    (Y == inject_Z (2 ^ (E - ex)) * Z0)%Q /\
    (inject_Z M - (1#2) <= Z0 /\ Z0 <= inject_Z M + (1#2))%Q /\
    (((Z0 == inject_Z M - (1#2)) \/ (Z0 == inject_Z M + (1#2)))%Q -> Z.even M = true) /\
    binary_round_aux prec64 emax64 sx mx ex lx = round_result sx M E.
Proof.
  intros Hmx Hex Hin.
  destruct (shr_fexp_correct mx ex lx Y Hmx Hex Hin) as [Y1 [Hrep [Hq [HE1 [HY Hcan]]]]].
  unfold binary_round_aux.
  destruct (shr_fexp prec64 emax64 mx ex lx) as [mrs' E1]. cbn [fst snd] in *.
  destruct (round_nearest_even_correct Y1 mrs' Hrep) as [Hb [Hties Hn]].
  set (q := shr_m mrs') in *.
  set (N := round_nearest_even q (loc_of_shr_record mrs')) in *.
  unfold shr_fexp. cbn [shr_record_of_loc]. fold (fexp64 (Zdigits2 N + E1)).
  destruct Hcan as [Hq53 [Hmin Hc]].
  destruct (Z.eq_dec N (2 ^ 53)) as [HN|HN].
  - (* carry into a new binade *)
    assert (HfN : fexp64 (Zdigits2 N + E1) - E1 = 1).
    { rewrite HN. change (Zdigits2 (2 ^ 53)) with 54. rewrite fexp64_eq. lia. }
    rewrite HfN. rewrite HN. cbn [shr iter_pos shr_m].
    exists (2 ^ 52), (E1 + 1), ((1#2) * Y1)%Q.
    split; [lia|]. split; [unfold canon; lia|]. split; [lia|].
    split.
    { rewrite HY. replace (E1 + 1 - ex) with ((E1 - ex) + 1) by lia.
      rewrite Z.pow_add_r by lia. rewrite inject_Z_mult. change (inject_Z (2 ^ 1)) with 2%Q.
      field. }
    rewrite HN in Hb. change (inject_Z (2 ^ 52)) with 4503599627370496%Q.
    change (inject_Z (2 ^ 53)) with 9007199254740992%Q in Hb.
    split; [lra|]. split; [intros _; reflexivity|].
    reflexivity.
  - (* no carry: the rounded mantissa is already canonical *)
    assert (HcN : canon N E1) by (unfold canon; lia).
    assert (HN0 : 0 <= N) by lia.
    pose proof (proj2 (canon_iff N E1 HN0) HcN) as HfN.
    replace (fexp64 (Zdigits2 N + E1) - E1) with 0 by lia.
    cbn [shr shr_m].
    exists N, E1, Y1.
    split; [exact HN0|]. split; [exact HcN|]. split; [exact HE1|].
    split; [exact HY|]. split; [exact Hb|]. split; [exact Hties|].
    reflexivity.
Qed.

Lemma new_location_correct (q r b : Z) (m' : Z) :
  0 < b -> m' = b * q + r -> 0 <= r < b ->
  inbetween (m' # Z.to_pos b) q (new_location b r).
Proof.
  intros Hb Hm Hr.
  assert (Hpos : Zpos (Z.to_pos b) = b) by (apply Z2Pos.id; lia).
  unfold new_location, new_location_even, new_location_odd.
  destruct (Z.even b) eqn:Hev.
  - destruct (Z.eqb_spec r 0) as [Hr0|Hr0].
    + cbn [inbetween]. unfold Qeq, inject_Z; cbn [Qnum Qden]. rewrite Hpos. nia.
    + destruct (Z.compare_spec (2 * r) b); cbn [inbetween];
        unfold Qeq, Qlt, Qplus, inject_Z; cbn [Qnum Qden]; rewrite ?Pos2Z.inj_mul, Hpos;
        try split; nia.
  - assert (Hodd : Z.odd b = true) by (rewrite <- Z.negb_even, Hev; reflexivity).
    apply Z.odd_spec in Hodd. destruct Hodd as [k Hk].
    destruct (Z.eqb_spec r 0) as [Hr0|Hr0].
    + cbn [inbetween]. unfold Qeq, inject_Z; cbn [Qnum Qden]. rewrite Hpos. nia.
    + destruct (Z.compare_spec (2 * r + 1) b); cbn [inbetween];
        unfold Qeq, Qlt, Qplus, inject_Z; cbn [Qnum Qden]; rewrite ?Pos2Z.inj_mul, Hpos;
        try split; nia.
Qed.

Lemma div_core_correct (m1 m2 : positive) (e1 e2 : Z) :
  let '(q, e', l) := SFdiv_core_binary prec64 emax64 (Zpos m1) e1 (Zpos m2) e2 in
  0 <= q /\ e' <= fexp64 (Zdigits2 q + e') /\ e' <= e1 - e2 /\
  inbetween ((Zpos m1 * 2 ^ (e1 - e2 - e')) # m2) q l.
Proof.
  unfold SFdiv_core_binary. fold (fexp64 (Zdigits2 (Zpos m1) + e1 - (Zdigits2 (Zpos m2) + e2))).
  set (d1 := Zdigits2 (Zpos m1)). set (d2 := Zdigits2 (Zpos m2)).
  set (e' := Z.min (fexp64 (d1 + e1 - (d2 + e2))) (e1 - e2)).
  assert (He' : e' <= e1 - e2) by (unfold e'; lia).
  set (s := e1 - e2 - e').
  assert (Hs : 0 <= s) by (unfold s; lia).
  set (m' := match s with Zpos _ => Z.shiftl (Zpos m1) s | Z0 => Zpos m1 | Zneg _ => 0 end).
  assert (Hm' : m' = Zpos m1 * 2 ^ s).
  { unfold m'. destruct s as [|p|p]; [lia| |lia]. apply Z.shiftl_mul_pow2. lia. }
  clearbody m'.
  pose proof (Z_div_mod m' (Zpos m2) ltac:(lia)) as Hdm.
  destruct (Z.div_eucl m' (Zpos m2)) as [q r]. destruct Hdm as [Hqr Hr].
  assert (Hm'0 : 0 <= m') by (rewrite Hm'; pose proof (Z.pow_pos_nonneg 2 s); nia).
  assert (Hq : 0 <= q) by nia.
  split; [exact Hq|]. split; [|split; [exact He'|]].
  - pose proof (Zdigits2_ge (Zpos m1) ltac:(lia)) as Hd1. fold d1 in Hd1.
    pose proof (Zdigits2_lt (Zpos m2) ltac:(lia)) as Hd2. fold d2 in Hd2.
    pose proof (Zdigits2_nonneg (Zpos m2)) as Hd20. fold d2 in Hd20.
    assert (Hd10 : 1 <= d1) by (unfold d1; simpl; lia).
    assert (Hk : fexp64 (d1 + e1 - (d2 + e2)) = Z.max (d1 + e1 - (d2 + e2) - 53) (-1074))
      by apply fexp64_eq.
    rewrite fexp64_eq. fold s in Hk.
    destruct (Z_le_gt_dec 0 (d1 - 1 + s - d2)) as [Ht|Ht].
    + set (t := d1 - 1 + s - d2) in *.
      assert (HqP : 2 ^ t <= q).
      { assert (Hsplit : 2 ^ (d1 - 1) * 2 ^ s = 2 ^ t * 2 ^ d2).
        { rewrite <- !Z.pow_add_r by lia. f_equal. unfold t. lia. }
        pose proof (Z.pow_pos_nonneg 2 t ltac:(lia)).
        pose proof (Z.pow_pos_nonneg 2 s ltac:(lia)).
        rewrite Hm' in Hqr.
        assert (Hlow : 2 ^ t * 2 ^ d2 <= Zpos m1 * 2 ^ s) by nia.
        nia. }
      assert (t < Zdigits2 q) by (apply Zdigits2_gt; lia).
      unfold e' in *. lia.
    + unfold e' in *. lia.
  - replace (Z.to_pos (Zpos m2)) with m2 in * by reflexivity.
    fold s. rewrite <- Hm'.
    exact (new_location_correct q r (Zpos m2) m' ltac:(lia) Hqr Hr).
Qed.

Lemma p2_pos e : (0 < p2 e)%Q.
Proof. apply Qpower_0_lt. reflexivity. Qed.

Lemma p2_plus a b : (p2 (a + b) == p2 a * p2 b)%Q.
Proof. apply Qpower_plus. discriminate. Qed.

Lemma p2_inject n : 0 <= n -> (inject_Z (2 ^ n) == p2 n)%Q.
Proof. intros Hn. apply Zpower_Qpower. exact Hn. Qed.

Lemma p2_le a b : a <= b -> (p2 a <= p2 b)%Q.
Proof. intros H. apply Qpower_le_compat_l; [exact H|]. unfold Qle; simpl; lia. Qed.

(** The exact value of a positive finite float. *)
Definition fval (m : positive) (e : Z) : Q := (inject_Z (Zpos m) * p2 e)%Q.

Lemma div_correct sx sy m1 e1 m2 e2 :
  exists M E Z0,
    0 <= M /\ canon M E /\
    (fval m1 e1 / fval m2 e2 == Z0 * p2 E)%Q /\
    (inject_Z M - (1#2) <= Z0 /\ Z0 <= inject_Z M + (1#2))%Q /\
    (((Z0 == inject_Z M - (1#2)) \/ (Z0 == inject_Z M + (1#2)))%Q -> Z.even M = true) /\
    SFdiv prec64 emax64 (S754_finite sx m1 e1) (S754_finite sy m2 e2) = round_result (xorb sx sy) M E.
Proof.
  cbn [SFdiv]. pose proof (div_core_correct m1 m2 e1 e2) as Hc.
  destruct (SFdiv_core_binary prec64 emax64 (Zpos m1) e1 (Zpos m2) e2) as [[q e'] l].
  destruct Hc as [Hq [Hfe [He' Hin]]].
  destruct (round_aux_correct (xorb sx sy) q e' l _ Hq Hfe Hin)
    as [M [E [Z0 [HM [Hcan [HE [HY [Hb [Ht Heq]]]]]]]]].
  exists M, E, Z0. split; [exact HM|]. split; [exact Hcan|].
  split; [|split; [exact Hb|split; [exact Ht|exact Heq]]].
  rewrite Qmake_Qdiv, inject_Z_mult in HY.
  rewrite !p2_inject in HY by lia.
  assert (Hs : (p2 e1 == p2 (e1 - e2 - e') * p2 e' * p2 e2)%Q).
  { rewrite <- !p2_plus. replace (e1 - e2 - e' + e' + e2) with e1 by lia. reflexivity. }
  assert (HE' : (p2 E == p2 (E - e') * p2 e')%Q).
  { rewrite <- p2_plus. replace (E - e' + e') with E by lia. reflexivity. }
  pose proof (p2_pos e2). pose proof (p2_pos e'). pose proof (p2_pos (E - e')).
  assert (Hm2 : (0 < inject_Z (Zpos m2))%Q) by (unfold Qlt; simpl; lia).
  unfold fval. rewrite Hs, HE'.
  assert (HY' : (inject_Z (Zpos m1) * p2 (e1 - e2 - e') == p2 (E - e') * Z0 * inject_Z (Zpos m2))%Q).
  { rewrite <- HY. field.
    intros Hz; rewrite Hz in Hm2; discriminate. }
  assert (Hnz : forall q : Q, (0 < q)%Q -> ~ (q == 0)%Q)
    by (intros q0 Hq0 Hz; rewrite Hz in Hq0; discriminate).
  transitivity (inject_Z (Zpos m1) * p2 (e1 - e2 - e') * p2 e' / inject_Z (Zpos m2))%Q.
  - field. split; apply Hnz; assumption.
  - rewrite HY'. field. apply Hnz; assumption.
Qed.

Lemma p2_m52 : (p2 (-52) == 1 # 4503599627370496)%Q.
Proof. reflexivity. Qed.
Lemma p2_m53 : (p2 (-53) == 1 # 9007199254740992)%Q.
Proof. reflexivity. Qed.
Lemma p2_m54 : (p2 (-54) == 1 # 18014398509481984)%Q.
Proof. reflexivity. Qed.

Lemma SFleb_half_finite m E :
  SFleb (S754_finite false m E) half =
  match Z.compare E (-53) with
  | Lt => true
  | Eq => match Pos.compare m 4503599627370496 with Gt => false | _ => true end
  | Gt => false
  end.
Proof.
  unfold SFleb, SFcompare, half. destruct (Z.compare E (-53)); [|reflexivity|reflexivity].
  unfold Pos.compare. destruct (Pos.compare_cont Eq m 4503599627370496); reflexivity.
Qed.

Lemma round_result_le_half M E Z0 X :
  0 <= M -> canon M E -> (X == Z0 * p2 E)%Q ->
  (inject_Z M - (1#2) <= Z0 /\ Z0 <= inject_Z M + (1#2))%Q ->
  (((Z0 == inject_Z M - (1#2)) \/ (Z0 == inject_Z M + (1#2)))%Q -> Z.even M = true) ->
  (SFleb (round_result false M E) half = true <->
   (X <= (1#2) + (1 # 18014398509481984))%Q).
Proof.
  intros HM [H53 [Hmin Hc]] HX [Hb1 Hb2] Ht.
  pose proof (p2_pos E) as HpE.
  assert (Hbig : -53 < E -> ~ (X <= (1#2) + (1 # 18014398509481984))%Q).
  { intros HE Hle. destruct Hc as [Hc|Hc]; [lia|].
    assert (HmQ : (inject_Z (2 ^ 52) <= inject_Z M)%Q) by (rewrite <- Zle_Qle; lia).
    change (inject_Z (2 ^ 52)) with 4503599627370496%Q in HmQ.
    pose proof (p2_le (-52) E ltac:(lia)) as Hp. rewrite p2_m52 in Hp.
    rewrite HX in Hle. nra. }
  destruct M as [|m|m]; [| |lia].
  - (* the quotient underflows to +0 *)
    split; [intros _|intros _; reflexivity].
    destruct Hc as [Hc|Hc]; [|lia]. subst E.
    change (inject_Z 0) with 0%Q in *.
    pose proof (p2_le (-1074) (-53) ltac:(lia)) as Hp. rewrite p2_m53 in Hp.
    rewrite HX. nra.
  - unfold round_result.
    destruct (Z.leb E (emax64 - prec64)) eqn:Hov.
    2:{ apply Z.leb_gt in Hov. cbn in Hov.
        split; [intros Hf; discriminate Hf|intros Hle; exfalso; apply (Hbig ltac:(lia) Hle)]. }
    rewrite SFleb_half_finite.
    assert (HmQ : (inject_Z (Zpos m) <= inject_Z (2 ^ 53 - 1))%Q) by (rewrite <- Zle_Qle; lia).
    change (inject_Z (2 ^ 53 - 1)) with 9007199254740991%Q in HmQ.
    assert (Hm1 : (1 <= inject_Z (Zpos m))%Q) by (change 1%Q with (inject_Z 1); rewrite <- Zle_Qle; lia).
    destruct (Z.compare_spec E (-53)) as [HE|HE|HE].
    + subst E. rewrite p2_m53 in HX.
      destruct (Pos.compare_spec m 4503599627370496) as [Hm|Hm|Hm].
      * subst m. change (inject_Z (Zpos 4503599627370496)) with 4503599627370496%Q in *.
        split; [intros _|intros _; reflexivity]. rewrite HX. lra.
      * assert (Hz : Zpos m < 4503599627370496) by exact Hm. clear Hm.
        assert (HmQ' : (inject_Z (Zpos m) <= inject_Z (2 ^ 52 - 1))%Q)
          by (rewrite <- Zle_Qle; lia).
        change (inject_Z (2 ^ 52 - 1)) with 4503599627370495%Q in HmQ'.
        split; [intros _|intros _; reflexivity]. rewrite HX. lra.
      * split; [intros Hf; discriminate Hf|intros Hle; exfalso].
        rewrite HX in Hle.
        assert (Hz : 4503599627370496 < Zpos m) by exact Hm. clear Hm.
        destruct (Pos.eq_dec m 4503599627370497) as [->|Hne].
        -- change (inject_Z (Zpos 4503599627370497)) with 4503599627370497%Q in *.
           assert (Z.even 4503599627370497 = true) by (apply Ht; left; lra).
           discriminate.
        -- assert (Hne' : Zpos m <> 4503599627370497)
             by (intros Heq; apply Hne; injection Heq; auto). clear Hne.
           assert (HmQ' : (inject_Z (2 ^ 52 + 2) <= inject_Z (Zpos m))%Q)
             by (rewrite <- Zle_Qle; lia).
           change (inject_Z (2 ^ 52 + 2)) with 4503599627370498%Q in HmQ'.
           lra.
    + split; [intros _|intros _; reflexivity].
      pose proof (p2_le E (-54) ltac:(lia)) as Hp. rewrite p2_m54 in Hp.
      rewrite HX. nra.
    + split; [intros Hf; discriminate Hf|intros Hle; exfalso; exact (Hbig HE Hle)].
Qed.

(** Between 1/2 and 1/2 + 2^-54 lies no quotient of two floats whose
    mantissas are below 2^53. *)
Lemma gap_core (X : Q) (P R : Z) :
  0 < R -> (R < 2 ^ 53 \/ P < 2 ^ 53) -> (X * (2 * inject_Z R) == inject_Z P)%Q ->
  (X <= (1#2) + (1 # 18014398509481984))%Q -> (X <= 1#2)%Q.
Proof.
  intros HR Hsmall HX Hle.
  assert (HRQ : (0 < inject_Z R)%Q) by (change 0%Q with (inject_Z 0); rewrite <- Zlt_Qlt; exact HR).
  assert (HPR : P <= R).
  { destruct (Z_lt_le_dec R (2 ^ 53)) as [HR53|HR53].
    - assert (HR53Q : (inject_Z R <= 9007199254740991)%Q)
        by (change 9007199254740991%Q with (inject_Z (2 ^ 53 - 1)); rewrite <- Zle_Qle; lia).
      assert (HPQ : (inject_Z P < inject_Z (R + 1))%Q).
      { rewrite inject_Z_plus. change (inject_Z 1) with 1%Q. rewrite <- HX. nra. }
      rewrite <- Zlt_Qlt in HPQ. lia.
    - destruct Hsmall as [|Hsmall]; lia. }
  assert (HPRQ : (inject_Z P <= inject_Z R)%Q) by (rewrite <- Zle_Qle; exact HPR).
  rewrite <- HX in HPRQ. nra.
Qed.

Lemma ratio_gap m1 e1 m2 e2 :
  Zpos m1 < 2 ^ 53 -> Zpos m2 < 2 ^ 53 ->
  (fval m1 e1 / fval m2 e2 <= (1#2) + (1 # 18014398509481984))%Q ->
  (fval m1 e1 / fval m2 e2 <= 1#2)%Q.
Proof.
  intros H1 H2. unfold fval.
  pose proof (p2_pos e1). pose proof (p2_pos e2).
  assert (Hnz : forall q : Q, (0 < q)%Q -> ~ (q == 0)%Q)
    by (intros q0 Hq0 Hz; rewrite Hz in Hq0; discriminate).
  assert (Hm2 : (0 < inject_Z (Zpos m2))%Q) by (unfold Qlt; simpl; lia).
  destruct (Z_le_gt_dec (-1) (e1 - e2)) as [Hd|Hd].
  - apply (gap_core _ (Zpos m1 * 2 ^ (e1 - e2 + 1)) (Zpos m2)); [lia|left; exact H2|].
    rewrite inject_Z_mult, p2_inject by lia.
    assert (Hp : (p2 (e1 - e2 + 1) * p2 e2 == 2 * p2 e1)%Q).
    { rewrite <- p2_plus. replace (e1 - e2 + 1 + e2) with (e1 + 1) by lia.
      rewrite p2_plus. change (p2 1) with 2%Q. ring. }
    transitivity (inject_Z (Zpos m1) * (2 * p2 e1) / p2 e2)%Q.
    + field. split; apply Hnz; assumption.
    + rewrite <- Hp. field. apply Hnz; assumption.
  - apply (gap_core _ (Zpos m1) (Zpos m2 * 2 ^ (e2 - e1 - 1))); [|right; exact H1|].
    { pose proof (Z.pow_pos_nonneg 2 (e2 - e1 - 1) ltac:(lia)). lia. }
    rewrite inject_Z_mult, p2_inject by lia.
    assert (Hp : (p2 e1 * (2 * p2 (e2 - e1 - 1)) == p2 e2)%Q).
    { replace e2 with (e1 + (e2 - e1 - 1) + 1) at 2 by lia.
      rewrite !p2_plus. change (p2 1) with 2%Q. ring. }
    transitivity (inject_Z (Zpos m1) * (p2 e1 * (2 * p2 (e2 - e1 - 1))) / p2 e2)%Q.
    + field. split; apply Hnz; assumption.
    + rewrite Hp. field. apply Hnz; assumption.
Qed.



Lemma valid_mantissa s m e :
  valid_binary prec64 emax64 (S754_finite s m e) = true -> Zpos m < 2 ^ 53.
Proof.
  cbn [valid_binary]. unfold bounded, canonical_mantissa. intros H.
  apply andb_prop in H as [H _]. apply Z.eqb_eq in H.
  assert (Hc : canon (Zpos m) e) by (apply canon_iff; [lia|symmetry; exact H]).
  destruct Hc; lia.
Qed.

End FloatFacts.

Lemma Q_of_float_fval (m : positive) (e : Z) :
  exists v, Q_of_float (S754_finite false m e) = Some v /\ (v == FloatFacts.fval m e)%Q.
Proof.
  unfold FloatFacts.fval. destruct e as [|p|p]; cbn [Q_of_float]; eexists; split; try reflexivity.
  - change (FloatFacts.p2 0) with 1%Q. ring.
  - rewrite inject_Z_mult, FloatFacts.p2_inject by lia. reflexivity.
  - rewrite Qmake_Qdiv, Pos2Z.inj_pow, FloatFacts.p2_inject by lia.
    unfold FloatFacts.p2. change (Z.neg p) with (- Z.pos p)%Z. rewrite Qpower_opp.
    reflexivity.
Qed.

Lemma passed_verifyNecessary (now : string) (fmt : spec_float -> string) (x y : spec_float) :
  passed (verifyNecessary now fmt x y) = SFleb (js_div x y) half.
Proof. reflexivity. Qed.






(** C6: for positive finite binary64 inputs (valid JavaScript numbers), the
    Necessity-Ratio checker returns passed = true exactly when the exact ratio
    expense_amount / business_revenue is at most 1/2; a ratio of exactly 1/2
    passes and any larger ratio fails. The code compares the rounded quotient
    with 0.5, and no quotient of two binary64 numbers above 1/2 rounds down to
    0.5. The same holds for [isNecessaryTool_execute]. *)
Theorem verifyNecessary_threshold_half (now : string) (fmt : spec_float -> string)
    (m1 m2 : positive) (e1 e2 : Z)
    (Hx : valid_binary prec64 emax64 (S754_finite false m1 e1) = true)
    (Hy : valid_binary prec64 emax64 (S754_finite false m2 e2) = true) :
  match Q_of_float (S754_finite false m1 e1), Q_of_float (S754_finite false m2 e2) with
  | Some a, Some b =>
      passed (verifyNecessary now fmt (S754_finite false m1 e1) (S754_finite false m2 e2)) = true
      <-> (a / b <= 1 # 2)%Q
  | _, _ => False
  end.
Proof.
  destruct (Q_of_float_fval m1 e1) as [a [-> Ha]].
  destruct (Q_of_float_fval m2 e2) as [b [-> Hb]].
  rewrite Ha, Hb, passed_verifyNecessary. unfold js_div.
  destruct (FloatFacts.div_correct false false m1 e1 m2 e2)
    as [M [E [Z0 [HM [Hcan [HX [Hbd [Ht Heq]]]]]]]].
  rewrite Heq. cbn [xorb].
  rewrite (FloatFacts.round_result_le_half M E Z0 _ HM Hcan HX Hbd Ht).
  split.
  - apply FloatFacts.ratio_gap; eapply FloatFacts.valid_mantissa; eassumption.
  - intros H. lra.
Qed.

(** A witness for C6: 3 / 6 = 1/2 passes. *)
Lemma verifyNecessary_threshold_half_witness :
  valid_binary prec64 emax64 (S754_finite false 6755399441055744 (-51)) = true /\
  valid_binary prec64 emax64 (S754_finite false 6755399441055744 (-50)) = true /\
  match Q_of_float (S754_finite false 6755399441055744 (-51)),
        Q_of_float (S754_finite false 6755399441055744 (-50)) with
  | Some a, Some b =>
      passed (verifyNecessary "2025-01-01T00:00:00.000Z" toFixed1
                (S754_finite false 6755399441055744 (-51))
                (S754_finite false 6755399441055744 (-50))) = true
      <-> (a / b <= 1 # 2)%Q
  | _, _ => False
  end.
Proof.
  split; [reflexivity|]. split; [reflexivity|].
  exact (verifyNecessary_threshold_half "2025-01-01T00:00:00.000Z" toFixed1
           6755399441055744 6755399441055744 (-51) (-50) eq_refl eq_refl).
Defined.

(* ------------------------------------------------------------------ *)
(** ** Negotiability checker *)

Lemma push_if_In (b : bool) (m x : string) (fs : list string) :
  In x (push_if b m fs) <-> In x fs \/ (b = true /\ x = m).
Proof.
  unfold push_if; destruct b; rewrite ?in_app_iff; simpl; intuition congruence.
Qed.

Lemma push_if_nil (b : bool) (m : string) (fs : list string) :
  push_if b m fs = [] <-> fs = [] /\ b = false.
Proof.
  unfold push_if; destruct b; split.
  - intros H. apply app_eq_nil in H as [_ H]. discriminate.
  - intros [_ H]; discriminate.
  - intros ->; auto.
  - intros [-> _]; reflexivity.
Qed.

Lemma negotiability_passed_nil (now : string) (t : InstrumentTerms) :
  passed (verifyNegotiability now t) = true <-> negotiability_failures t = [].
Proof.
  unfold verifyNegotiability; cbn [passed].
  rewrite Nat.eqb_eq, length_zero_iff_nil. reflexivity.
Qed.

Lemma negotiability_details_include (now : string) (t : InstrumentTerms) (m : string) :
  In m (negotiability_failures t) -> includes (details (verifyNegotiability now t)) m = true.
Proof.
  intros Hm. unfold verifyNegotiability.
  destruct (Nat.eqb _ 0) eqn:Hl.
  - apply Nat.eqb_eq, length_zero_iff_nil in Hl. rewrite Hl in Hm. destruct Hm.
  - cbn [details]. apply (includes_trans _ (join ", " (negotiability_failures t))).
    + apply includes_spec. exists "FAILED: Non-negotiable. Violations: ", EmptyString.
      now rewrite str_app_nil_r.
    + now apply join_includes.
Qed.

Definition all_violations : InstrumentTerms :=
  {| promise_type := Conditional; amount_type := Variable'; currency := None;
     payable_to := Specific_person; timing := Indefinite; other_undertakings := true |}.

(** C7: the Negotiability checker evaluates all five sub-conditions. It
    passes exactly when none is violated, and on failure its details name
    every violated sub-condition; an instrument violating all five gets a
    details string listing all five violations. *)
Theorem verifyNegotiability_collects_all (now : string) (t : InstrumentTerms) :
  (passed (verifyNegotiability now t) = true <->
     promise_type t = Unconditional /\ amount_type t = Fixed /\
     payable_to t <> Specific_person /\ timing t <> Indefinite /\
     other_undertakings t = false) /\
  (passed (verifyNegotiability now t) = true <-> negotiability_failures t = []) /\
  (promise_type t <> Unconditional ->
     includes (details (verifyNegotiability now t)) msg_unconditional = true) /\
  (amount_type t <> Fixed ->
     includes (details (verifyNegotiability now t)) msg_fixed = true) /\
  (payable_to t = Specific_person ->
     includes (details (verifyNegotiability now t)) msg_payable = true) /\
  (timing t = Indefinite ->
     includes (details (verifyNegotiability now t)) msg_timing = true) /\
  (other_undertakings t = true ->
     includes (details (verifyNegotiability now t)) msg_undertaking = true) /\
  details (verifyNegotiability now all_violations) =
    "FAILED: Non-negotiable. Violations: " ++
    join ", " [msg_unconditional; msg_fixed; msg_payable; msg_timing; msg_undertaking].
Proof.
  assert (Hdet : forall m, In m (negotiability_failures t) ->
            includes (details (verifyNegotiability now t)) m = true)
    by apply negotiability_details_include.
  pose proof (negotiability_passed_nil now t) as Hpass.
  unfold negotiability_failures in Hdet. repeat setoid_rewrite push_if_In in Hdet.
  split; [| split; [exact Hpass |]].
  - rewrite Hpass. unfold negotiability_failures. rewrite !push_if_nil.
    destruct t as [pt at' cur pto tm ou]; cbn [promise_type amount_type payable_to timing other_undertakings].
    destruct pt, at', pto, tm, ou; simpl; intuition congruence.
  - split; [| split; [| split; [| split; [| split]]]];
      [intros H; apply Hdet .. | reflexivity].
    + left; left; left; left; right.
      split; [destruct (promise_type t); congruence | reflexivity].
    + left; left; left; right. split; [destruct (amount_type t); congruence | reflexivity].
    + left; left; right. split; [rewrite H; reflexivity | reflexivity].
    + left; right. split; [rewrite H; reflexivity | reflexivity].
    + right. split; [exact H | reflexivity].
Qed.

(* ------------------------------------------------------------------ *)
(** ** Audit ledger *)

(** C8: every append puts the new entry at the head and keeps the previous
    entries unchanged behind it; after appends with actions A, B, C the
    ledger reads [C, B, A, ...preexisting entries]. *)
Theorem ledger_append_newest_first
    (fa fb fc : Ledger.Fresh) (A B C dA dB dC : string)
    (sA sB sC : Ledger.EntrySource) (tA tB tC : Ledger.EntryStatus)
    (mA mB mC : option Ledger.ArbiterMetadata) (l : Ledger.Ledger) :
  let l3 := Ledger.addEntry fc C dC sC tC mC
              (Ledger.addEntry fb B dB sB tB mB
                (Ledger.addEntry fa A dA sA tA mA l)) in
  map Ledger.action (firstn 3 l3) = [C; B; A] /\
  skipn 3 l3 = l /\
  List.length l3 = 3 + List.length l /\
  (forall fr a d src st md, tl (Ledger.addEntry fr a d src st md l) = l).
Proof.
  repeat split; reflexivity.
Qed.

(* ------------------------------------------------------------------ *)
(** ** Form synthesizer *)

(** C9: for every [data], a promissory note is checked against terms that
    are always compliant (unconditional, fixed, payable to order, on demand
    or at a definite time, no other undertaking): the verdict passes and the
    full note is rendered, so the GENERATION BLOCKED branch is unreachable. *)
Theorem promissory_note_never_blocked (env : FormEnv) (data : FormData) :
  passed (snd (generateVerifiedForm env "promissory_note_ucc" data)) = true /\
  fst (generateVerifiedForm env "promissory_note_ucc" data) = promissory_note_text env data /\
  (forall reason, fst (generateVerifiedForm env "promissory_note_ucc" data)
                  <> protocol_blocked_text reason).
Proof.
  unfold generateVerifiedForm; simpl String.eqb; cbv iota beta.
  destruct (truthy_str (date data)); simpl;
    (split; [reflexivity | split; [reflexivity | intros r; discriminate]]).
Qed.

(** C10: for every [data], a bill of sale and a contractor agreement always
    get a passing verdict and the full rendered template, whatever fields are
    present or missing. *)
Theorem bill_and_contractor_never_blocked (env : FormEnv) (data : FormData) :
  passed (snd (generateVerifiedForm env "bill_of_sale_ucc" data)) = true /\
  fst (generateVerifiedForm env "bill_of_sale_ucc" data) = bill_of_sale_text env data /\
  passed (snd (generateVerifiedForm env "contractor_agreement" data)) = true /\
  fst (generateVerifiedForm env "contractor_agreement" data) = contractor_agreement_text data.
Proof. repeat split. Qed.

Definition set_collateral (c : option string) (d : FormData) : FormData :=
  {| amount := amount d; date := date d; lender := lender d; borrower := borrower d;
     seller := seller d; buyer := buyer d; client := client d; contractor := contractor d;
     collateral := c; goods_description := goods_description d; services := services d;
     state := state d; debtor := debtor d; secured_party := secured_party d;
     obligation := obligation d |}.

Lemma security_text_has_header (env : FormEnv) (data : FormData) :
  includes (security_agreement_text env data) security_agreement_header = true.
Proof.
  apply includes_spec. unfold security_agreement_text, template.
  exists nl. cbn [join].
  eexists. rewrite !str_app_assoc. reflexivity.
Qed.

(** C3: a security agreement passes exactly when the collateral field is
    present with more than 3 characters (code units). When it fails (for
    instance with an empty collateral) the document text carries the
    GENERATION BLOCKED marker and contains neither the agreement heading nor
    the agreement template. *)
Theorem security_agreement_collateral_gate (env : FormEnv) (data : FormData) :
  (passed (snd (generateVerifiedForm env "security_agreement_ucc" data)) = true <->
     exists c, collateral data = Some c /\ 3 < String.length c) /\
  (passed (snd (generateVerifiedForm env "security_agreement_ucc" data)) = false ->
     includes (fst (generateVerifiedForm env "security_agreement_ucc" data))
              "GENERATION BLOCKED" = true /\
     includes (fst (generateVerifiedForm env "security_agreement_ucc" data))
              security_agreement_header = false /\
     includes (fst (generateVerifiedForm env "security_agreement_ucc" data))
              (security_agreement_text env data) = false) /\
  passed (snd (generateVerifiedForm env "security_agreement_ucc"
                 (set_collateral (Some EmptyString) data))) = false.
Proof.
  split; [| split].
  - unfold generateVerifiedForm. cbn [String.eqb Ascii.eqb Bool.eqb andb].
    destruct (collateral data) as [c|] eqn:Hc; cbn [truthy_str negb andb].
    + destruct c as [|x c']; cbn [String.eqb negb andb String.length].
      * cbn [fst snd passed].
        split; [discriminate | intros [c [H Hl]]; injection H as <-; simpl in Hl; lia].
      * destruct (Nat.ltb 3 (S (String.length c'))) eqn:Hl; cbn [fst snd passed].
        -- apply Nat.ltb_lt in Hl. split; [intros _; now exists (String x c') | reflexivity].
        -- apply Nat.ltb_ge in Hl. split; [discriminate |].
           intros [c [H Hlt]]. injection H as <-. simpl in Hlt. lia.
    + cbn [fst snd passed]. split; [discriminate | intros [c [H _]]; discriminate].
  - unfold generateVerifiedForm. cbn [String.eqb Ascii.eqb Bool.eqb andb].
    destruct (_ && _); cbn [fst snd passed]; [discriminate |].
    intros _. split; [vm_compute; reflexivity | split; [vm_compute; reflexivity |]].
    destruct (includes security_blocked_text (security_agreement_text env data)) eqn:H;
      [| reflexivity].
    pose proof (includes_trans _ _ _ H (security_text_has_header env data)) as H'.
    vm_compute in H'. discriminate H'.
  - vm_compute. reflexivity.
Qed.

(* ------------------------------------------------------------------ *)
(** ** Policy gates *)

Module GateFacts.
Import Json AgentGate SessionGate.

Definition not_ordinary (i : HistoryItem) : bool := negb (is_ordinary_result i).

Lemma pop_snoc {A} (xs : list A) (x : A) : pop (app xs [x]) = Some x.
Proof.
  induction xs as [|y xs IH]; [reflexivity |].
  destruct xs as [|z xs]; [reflexivity |]. exact IH.
Qed.

Lemma filter_none (h : list HistoryItem) :
  forallb not_ordinary h = true -> filter is_ordinary_result h = [].
Proof.
  induction h as [|i h IH]; [reflexivity |]. cbn [forallb filter].
  unfold not_ordinary at 1. destruct (is_ordinary_result i); [discriminate |]. exact IH.
Qed.

Lemma filter_last (h h' : list HistoryItem) (item : HistoryItem) :
  is_ordinary_result item = true -> forallb not_ordinary h' = true ->
  filter is_ordinary_result (app h (item :: h')) = app (filter is_ordinary_result h) [item].
Proof.
  intros Hi Hh'. rewrite filter_app. cbn [filter]. rewrite Hi, (filter_none h' Hh'). reflexivity.
Qed.

(** The agent gate reads only the most recent ordinary-check result: the
    outcome is that of [output.passed === true] on its parsed payload. *)
Lemma agent_gate_most_recent (h h' : list HistoryItem) (item : HistoryItem) :
  is_ordinary_result item = true -> forallb not_ordinary h' = true ->
  isNecessaryEnabled (Some (app h (item :: h'))) =
    match JSON_parse (item_output item) with
    | None => Throw "SyntaxError"
    | Some v => passed_is_true v
    end.
Proof.
  intros Hi Hh'. unfold isNecessaryEnabled.
  rewrite (filter_last h h' item Hi Hh'), pop_snoc.
  assert (Ht : String.eqb (item_type item) "function_call_result" = true)
    by (unfold is_ordinary_result in Hi; apply andb_true_iff in Hi; apply Hi).
  rewrite Ht. destruct (JSON_parse (item_output item)) as [v|]; [| reflexivity].
  destruct (passed_is_true v) as [[|]|e]; reflexivity.
Qed.

Lemma agent_gate_no_ordinary (h : list HistoryItem) :
  forallb not_ordinary h = true -> isNecessaryEnabled (Some h) = Ok false.
Proof. intros H. unfold isNecessaryEnabled. now rewrite filter_none. Qed.

(** Once [ordinaryPassed] is set, no later call of the session clears it. *)
Lemma session_flag_sticky (now : string) (calls : list FunctionCall) :
  run_turn now true calls = true.
Proof.
  unfold run_turn. induction calls as [|c calls IH]; [reflexivity |].
  cbn [fold_left]. replace (policy_step now true c) with true; [exact IH |].
  destruct c; cbn [policy_step]; [destruct (passed _) |..]; reflexivity.
Qed.

End GateFacts.

Module GateExamples.
Import Json AgentGate SessionGate.

Definition ts : string := "2025-01-01T00:00:00.000Z".

(** A history entry recording the output of the ordinary checker. *)
Definition ordinary_result (output : string) : HistoryItem :=
  {| item_type := "function_call_result"; item_name := Some "is_ordinary_rule_checker";
     item_output := output |}.

Definition ordinary_pass : ValidationStep := verifyOrdinary ts "238350" "truck".
Definition ordinary_fail : ValidationStep := verifyOrdinary ts "238350" "laptop".

(** The payload [{"passed":tr], cut short. *)
Definition truncated_payload : string := "{" ++ dq ++ "passed" ++ dq ++ ":tr".

Definition base_tools : list string :=
  ["verify_ordinary"; "verify_negotiability"; "analyze_clause_risks";
   "draft_verified_form"; "consult_statute"].

End GateExamples.

Import AgentGate SessionGate GateFacts GateExamples.

(** C1: the Necessity checker is meant to follow the most recent
    Ordinary verdict. The agent gate [isNecessaryEnabled] does: after
    [Ordinary:PASS, Ordinary:FAIL] it is disabled, after
    [Ordinary:FAIL, Ordinary:PASS] enabled, and with an empty history
    disabled. The chat session's gate does not: its flag
    [ordinaryPassed] is only ever set, so after a passing and then a
    failing ordinary check [verify_necessary] is still offered. *)
Theorem necessity_gate_pass_then_fail :
  passed ordinary_pass = true /\
  passed ordinary_fail = false /\
  sendLegalMessage_tools ts [[Call_verify_ordinary "238350" "truck"];
                             [Call_verify_ordinary "238350" "laptop"]]
    = [base_tools; app base_tools ["verify_necessary"]; app base_tools ["verify_necessary"]] /\
  sendLegalMessage_tools ts [[Call_verify_ordinary "238350" "truck";
                              Call_verify_ordinary "238350" "laptop"]]
    = [base_tools; app base_tools ["verify_necessary"]] /\
  isNecessaryEnabled (Some [ordinary_result (Stringify.stringify_step ordinary_pass);
                            ordinary_result (Stringify.stringify_step ordinary_fail)]) = Ok false /\
  isNecessaryEnabled (Some [ordinary_result (Stringify.stringify_step ordinary_fail);
                            ordinary_result (Stringify.stringify_step ordinary_pass)]) = Ok true /\
  isNecessaryEnabled (Some []) = Ok false /\
  sendLegalMessage_tools ts [] = [base_tools].
Proof. repeat split; vm_compute; reflexivity. Qed.

(** C2: when the most recent ordinary-check result in the history has a
    payload that is not valid JSON, the agent gate does not return [false]:
    [JSON.parse] throws a [SyntaxError] out of [isNecessaryEnabled]. *)
Theorem agent_gate_throws_on_malformed (h h' : list HistoryItem) (item : HistoryItem) :
  is_ordinary_result item = true ->
  forallb not_ordinary h' = true ->
  Json.JSON_parse (item_output item) = None ->
  isNecessaryEnabled (Some (app h (item :: h'))) = Throw "SyntaxError".
Proof.
  intros Hi Hh' Hp. rewrite (agent_gate_most_recent h h' item Hi Hh'), Hp. reflexivity.
Qed.

Lemma agent_gate_throws_on_malformed_witness :
  is_ordinary_result (ordinary_result truncated_payload) = true /\
  forallb not_ordinary [] = true /\
  Json.JSON_parse truncated_payload = None /\
  isNecessaryEnabled (Some [ordinary_result truncated_payload]) = Throw "SyntaxError".
Proof.
  split; [vm_compute; reflexivity |]. split; [reflexivity |].
  split; [vm_compute; reflexivity |].
  exact (agent_gate_throws_on_malformed [] [] (ordinary_result truncated_payload)
           eq_refl eq_refl eq_refl).
Defined.

(* ================================================================== *)
(** * Further properties of the engine *)

(* ------------------------------------------------------------------ *)
(** ** Lower-casing *)

Lemma lower_char_idem (c : ascii) : lower_char (lower_char c) = lower_char c.
Proof. destruct c as [[] [] [] [] [] [] [] []]; reflexivity. Qed.

Lemma toLowerCase_idem (s : string) : toLowerCase (toLowerCase s) = toLowerCase s.
Proof.
  induction s as [|c s IH]; [reflexivity |]. cbn [toLowerCase]. now rewrite lower_char_idem, IH.
Qed.

(* ------------------------------------------------------------------ *)
(** ** Law library *)

Definition ucc_3_104_result : StatuteResult :=
  {| found := true; title := Some "Negotiable Instrument";
     text := Some (st_text (snd (hd ("", {| st_title := ""; st_source := ""; st_text := "" |})
                                     LAW_LIBRARY)));
     citation := Some ("Uniform Commercial Code " ++ sect ++ " 3-104") |}.

(** X1: the statute lookup ignores the case of the query. *)
Theorem consultStatute_case_insensitive (q : string) :
  consultStatute (toLowerCase q) = consultStatute q.
Proof. unfold consultStatute. now rewrite toLowerCase_idem. Qed.

(** X2: the first key of the library wins: a query that contains
    "ucc 3-104" or is contained in it, in any case (the empty query among
    them), is answered with UCC 3-104, even when it also names another
    statute of the library. *)
Theorem consultStatute_first_key_wins (q : string)
    (H : includes (toLowerCase q) "ucc 3-104" = true \/ includes "ucc 3-104" (toLowerCase q) = true) :
  consultStatute q = ucc_3_104_result.
Proof.
  unfold consultStatute. cbn [find LAW_LIBRARY].
  replace (toLowerCase "UCC 3-104") with "ucc 3-104" by reflexivity.
  destruct H as [H | H]; rewrite H; [| rewrite orb_true_r]; reflexivity.
Qed.

Lemma consultStatute_first_key_wins_witness :
  (includes (toLowerCase "UCC 9-203 and UCC 3-104") "ucc 3-104" = true \/
   includes "ucc 3-104" (toLowerCase "UCC 9-203 and UCC 3-104") = true) /\
  consultStatute "UCC 9-203 and UCC 3-104" = ucc_3_104_result.
Proof.
  assert (H : includes (toLowerCase "UCC 9-203 and UCC 3-104") "ucc 3-104" = true \/
              includes "ucc 3-104" (toLowerCase "UCC 9-203 and UCC 3-104") = true)
    by (left; vm_compute; reflexivity).
  split; [exact H | exact (consultStatute_first_key_wins _ H)].
Defined.

(* ------------------------------------------------------------------ *)
(** ** Ordinary-expense checkers *)

Definition live_query_prefix : string :=
  "LIVE_QUERY: " ++ ircEndpoint ++ "/section/162a/precedent?naics=".

(** X3: the ordinary checker ignores the case of the expense category (so
    "Truck" passes for a carpenter like "truck"), and its evidence source is
    the query URL of the NAICS code, the same for a passing and a failing
    verdict. *)
Theorem verifyOrdinary_case_insensitive (now naics e : string) :
  passed (verifyOrdinary now naics (toLowerCase e)) = passed (verifyOrdinary now naics e) /\
  evidence_source (verifyOrdinary now naics e) = live_query_prefix ++ naics /\
  passed (verifyOrdinary now "238350" "Truck") = true.
Proof.
  unfold verifyOrdinary, query. rewrite toLowerCase_idem.
  split; [| split; [| reflexivity]].
  - destruct (_ && _); reflexivity.
  - destruct (_ && _); cbn [evidence_source]; unfold live_query_prefix;
      now rewrite !str_app_assoc.
Qed.

Lemma includes_live_query_failed (naics : string) :
  includes ("LIVE_QUERY: " ++ ircEndpoint ++ "/section/162a/precedent?naics=" ++ naics) "Failed"
  = includes naics "Failed".
Proof. reflexivity. Qed.

(** X4: the ordinary tool of the agent pipeline gives the same [passed] as
    the engine's checker for every input. Its "Failed: Industry ... not
    found" branch is taken exactly when the NAICS code itself contains
    "Failed"; otherwise the whole verdict equals the engine's. In that branch
    only the details differ: rule id, verdict, evidence source, timestamp and
    the absent generated content are the engine's. *)
Theorem isOrdinaryTool_matches_verifyOrdinary (now naics e : string) :
  passed (isOrdinaryTool_execute now naics e) = passed (verifyOrdinary now naics e) /\
  (includes naics "Failed" = false -> isOrdinaryTool_execute now naics e = verifyOrdinary now naics e) /\
  (includes naics "Failed" = true ->
     details (isOrdinaryTool_execute now naics e) =
       "Failed: Industry (NAICS code " ++ naics ++ ") not found in precedent database.") /\
  (includes naics "Failed" = true ->
     isOrdinaryTool_execute now naics e =
       {| rule_id := rule_id (verifyOrdinary now naics e);
          passed := passed (verifyOrdinary now naics e);
          details := "Failed: Industry (NAICS code " ++ naics ++ ") not found in precedent database.";
          evidence_source := evidence_source (verifyOrdinary now naics e);
          timestamp := timestamp (verifyOrdinary now naics e);
          generated_content := generated_content (verifyOrdinary now naics e) |}).
Proof.
  unfold isOrdinaryTool_execute, verifyOrdinary, query. cbv zeta.
  destruct (String.eqb naics "238350" && _) eqn:Hq; cbv iota;
    rewrite includes_live_query_failed;
    destruct (includes naics "Failed") eqn:Hn;
    cbn [passed details rule_id evidence_source timestamp generated_content].
  - apply andb_true_iff in Hq as [He _]. apply String.eqb_eq in He. subst naics. discriminate Hn.
  - split; [reflexivity | split; [| split]]; intros H; first [discriminate H | reflexivity].
  - split; [reflexivity | split; [| split]]; intros H; first [discriminate H | reflexivity].
  - split; [reflexivity | split; [| split]]; intros H; first [discriminate H | reflexivity].
Qed.

(* ------------------------------------------------------------------ *)
(** ** Contract risk scan *)

Lemma ftc_lookup :
  consultStatute "FTC Credit Rule" =
    {| found := true; title := Some "Unfair Credit Practices";
       text := Some (st_text (snd (nth 3 LAW_LIBRARY ("", {| st_title := ""; st_source := ""; st_text := "" |}))));
       citation := Some ("16 CFR " ++ sect ++ " 444.2") |}.
Proof. vm_compute. reflexivity. Qed.

Definition risk_ftc : string :=
  "CRITICAL: Prohibited in consumer contracts. Source: 16 CFR " ++ sect ++ " 444.2".

(** The risks the scan can report, each with the condition that adds it. *)
Lemma contract_risks_In (clause docType x : string) :
  let l := toLowerCase clause in
  In x (contract_risks clause docType) <->
    ((includes l "waive all rights" || includes l "waive jury trial" || includes l "arbitration")
       = true /\ x = risk_arbitration) \/
    ((includes l "indemnify" || includes l "hold harmless") && includes l "gross negligence"
       = true /\ x = risk_indemnity) \/
    (includes l "perpetuity" && includes docType "service" = true /\ x = risk_perpetuity) \/
    (includes l "penalty" && negb (includes l "liquidated damages") = true /\ x = risk_penalty) \/
    (includes l "confession of judgment" || includes l "cognovit" = true /\ x = risk_ftc).
Proof.
  cbv zeta. unfold contract_risks. cbv zeta. rewrite ftc_lookup. cbn [found citation subst_opt].
  destruct (includes (toLowerCase clause) "confession of judgment"
            || includes (toLowerCase clause) "cognovit");
    replace ("CRITICAL: Prohibited in consumer contracts. Source: " ++ ("16 CFR " ++ sect ++ " 444.2"))
      with risk_ftc by reflexivity;
    rewrite ?in_app_iff, !push_if_In; cbn [In]; intuition congruence.
Qed.

Ltac distinct_strings := intros ?Heq; vm_compute in Heq; discriminate Heq.

(** X5: the risk scan ignores the case of the clause, but not of the
    document type: a perpetuity clause is flagged for a "service_contract"
    and not for a "Service_Contract". *)
Theorem analyzeContractRisks_case (now clause docType : string) :
  analyzeContractRisks now (toLowerCase clause) docType = analyzeContractRisks now clause docType /\
  contract_risks "perpetuity" "service_contract" = [risk_perpetuity] /\
  contract_risks "perpetuity" "Service_Contract" = [].
Proof.
  split; [| split; vm_compute; reflexivity].
  unfold analyzeContractRisks, contract_risks. now rewrite toLowerCase_idem.
Qed.

(** X6: a clause that mentions liquidated damages is never flagged for a
    penalty, whatever else it says. *)
Theorem analyzeContractRisks_liquidated_damages (clause docType : string)
    (H : includes (toLowerCase clause) "liquidated damages" = true) :
  ~ In risk_penalty (contract_risks clause docType).
Proof.
  intros Hin. apply contract_risks_In in Hin. cbv zeta in Hin. rewrite H in Hin.
  rewrite andb_false_r in Hin.
  destruct Hin as [[_ E] | [[_ E] | [[_ E] | [[E _] | [_ E]]]]];
    [revert E; distinct_strings .. | discriminate E | revert E; distinct_strings].
Qed.

Lemma analyzeContractRisks_liquidated_damages_witness :
  includes (toLowerCase "Late payment penalty of $50 as liquidated damages") "liquidated damages" = true /\
  ~ In risk_penalty (contract_risks "Late payment penalty of $50 as liquidated damages" "loan").
Proof.
  assert (H : includes (toLowerCase "Late payment penalty of $50 as liquidated damages")
                "liquidated damages" = true) by (vm_compute; reflexivity).
  split; [exact H | exact (analyzeContractRisks_liquidated_damages _ _ H)].
Defined.

(** X7: the library lookups the checkers make always succeed, so their
    fallbacks are never used: the negotiability verdict always cites
    "Uniform Commercial Code § 3-104", a passing security agreement cites
    "Uniform Commercial Code § 9-203", and a confession-of-judgment clause is
    always flagged with the citation "16 CFR § 444.2" of the library, never
    with the fallback message. *)
Theorem library_fallbacks_unused (now : string) (t : InstrumentTerms) (env : FormEnv)
    (data : FormData) (clause docType : string) :
  evidence_source (verifyNegotiability now t) = "Uniform Commercial Code " ++ sect ++ " 3-104" /\
  (passed (snd (generateVerifiedForm env "security_agreement_ucc" data)) = true ->
     evidence_source (snd (generateVerifiedForm env "security_agreement_ucc" data)) =
       "Uniform Commercial Code " ++ sect ++ " 9-203") /\
  ~ In risk_cognovit_fallback (contract_risks clause docType) /\
  (includes (toLowerCase clause) "confession of judgment" || includes (toLowerCase clause) "cognovit"
     = true -> In risk_ftc (contract_risks clause docType)).
Proof.
  split; [| split; [| split]].
  - reflexivity.
  - unfold generateVerifiedForm. cbn [String.eqb Ascii.eqb Bool.eqb andb].
    destruct (_ && _); cbn [fst snd passed]; [reflexivity | discriminate].
  - intros Hin. apply contract_risks_In in Hin.
    destruct Hin as [[_ E] | [[_ E] | [[_ E] | [[_ E] | [_ E]]]]]; revert E; distinct_strings.
  - intros H. apply contract_risks_In. cbv zeta. right; right; right; right. now split.
Qed.


(* ------------------------------------------------------------------ *)
(** ** Form synthesizer and the [draft_verified_form] tool *)

Lemma generateVerifiedForm_no_content (env : FormEnv) (form_type : string) (data : FormData) :
  generated_content (snd (generateVerifiedForm env form_type data)) = None.
Proof.
  unfold generateVerifiedForm.
  destruct (String.eqb form_type "promissory_note_ucc");
    [destruct (truthy_str (date data)); reflexivity |].
  destruct (String.eqb form_type "security_agreement_ucc"); [destruct (_ && _); reflexivity |].
  destruct (String.eqb form_type "bill_of_sale_ucc"); [reflexivity |].
  destruct (String.eqb form_type "contractor_agreement"); reflexivity.
Qed.

(** X8: the tool response of [draft_verified_form] carries the document text
    exactly when the verdict passed, and then it is the synthesized markdown:
    a blocked or unknown form never sends text back to the model. *)
Theorem draft_result_text_iff_passed (env : FormEnv) (form_type : string) (data : FormData)
    (md : string) :
  generated_content (draft_verified_form_result env form_type data) = Some md <->
  passed (snd (generateVerifiedForm env form_type data)) = true /\
  md = fst (generateVerifiedForm env form_type data).
Proof.
  pose proof (generateVerifiedForm_no_content env form_type data) as Hn.
  unfold draft_verified_form_result.
  destruct (generateVerifiedForm env form_type data) as [m val]. cbn [fst snd] in *.
  destruct (passed val); cbn [generated_content].
  - split; [intros H; injection H as <-; split; reflexivity | intros [_ ->]; reflexivity].
  - rewrite Hn. split; [discriminate | intros [H _]; discriminate H].
Qed.

Definition form_types : list string :=
  ["promissory_note_ucc"; "security_agreement_ucc"; "bill_of_sale_ucc"; "contractor_agreement"].

(** X9: any form type other than the four exact names (the comparison is
    case-sensitive) yields an empty document and a failing FORM_GEN verdict
    "Unknown form type". *)
Theorem generateVerifiedForm_unknown_type (env : FormEnv) (form_type : string) (data : FormData)
    (H : existsb (String.eqb form_type) form_types = false) :
  generateVerifiedForm env form_type data =
    (EmptyString,
     {| rule_id := "FORM_GEN"; passed := false; details := "Unknown form type";
        evidence_source := "System"; timestamp := now env; generated_content := None |}).
Proof.
  cbn [form_types existsb] in H. apply orb_false_iff in H as [H1 H].
  apply orb_false_iff in H as [H2 H]. apply orb_false_iff in H as [H3 H].
  apply orb_false_iff in H as [H4 _].
  unfold generateVerifiedForm. now rewrite H1, H2, H3, H4.
Qed.

Definition no_data : FormData :=
  {| amount := None; date := None; lender := None; borrower := None; seller := None;
     buyer := None; client := None; contractor := None; collateral := None;
     goods_description := None; services := None; state := None; debtor := None;
     secured_party := None; obligation := None |}.

Definition sample_env : FormEnv :=
  {| now := "2025-01-01T00:00:00.000Z"; today := "2025-01-01"; num_to_string := fun _ => "0" |}.

Lemma generateVerifiedForm_unknown_type_witness :
  existsb (String.eqb "Promissory_Note_UCC") form_types = false /\
  generateVerifiedForm sample_env "Promissory_Note_UCC" no_data =
    (EmptyString,
     {| rule_id := "FORM_GEN"; passed := false; details := "Unknown form type";
        evidence_source := "System"; timestamp := now sample_env; generated_content := None |}).
Proof.
  assert (H : existsb (String.eqb "Promissory_Note_UCC") form_types = false) by reflexivity.
  split; [exact H | exact (generateVerifiedForm_unknown_type sample_env _ no_data H)].
Defined.

(* ------------------------------------------------------------------ *)
(** ** The tool loop of [sendLegalMessage] *)

Module LoopFacts.
Import SessionGate.

Lemma offered_length (now : string) (fuel : nat) (b : bool) (turns : list (list FunctionCall)) :
  List.length (offered now fuel b turns) <= S fuel.
Proof.
  revert b turns. induction fuel as [|fuel IH]; intros b turns; cbn [offered].
  - destruct turns; cbn; lia.
  - destruct turns as [|[|c cs] turns]; cbn [List.length]; [lia | lia |].
    specialize (IH (run_turn now b (c :: cs)) turns). lia.
Qed.

Lemma offered_all_true (now : string) (fuel : nat) (turns : list (list FunctionCall)) (k : nat) :
  k < List.length (offered now fuel true turns) ->
  nth k (offered now fuel true turns) [] = getAllowedTools true.
Proof.
  revert turns k. induction fuel as [|fuel IH]; intros turns k Hk; cbn [offered] in *.
  - destruct turns; cbn in Hk |- *; (destruct k; [reflexivity | lia]).
  - destruct turns as [|[|c cs] turns]; cbn [List.length nth] in Hk |- *;
      (destruct k; [reflexivity |]); try lia.
    rewrite GateFacts.session_flag_sticky in Hk |- *. apply IH. lia.
Qed.

Lemma in_getAllowedTools (b : bool) :
  In "verify_necessary" (getAllowedTools b) <-> b = true.
Proof.
  destruct b; cbn.
  - split; [intros _; reflexivity | intros _; do 5 right; left; reflexivity].
  - split; [intros H; repeat (destruct H as [H | H]; [discriminate H |]); contradiction
           | discriminate].
Qed.

Lemma offered_monotone (now : string) (fuel : nat) (b : bool) (turns : list (list FunctionCall))
    (i j : nat) :
  i <= j -> j < List.length (offered now fuel b turns) ->
  In "verify_necessary" (nth i (offered now fuel b turns) []) ->
  In "verify_necessary" (nth j (offered now fuel b turns) []).
Proof.
  revert b turns i j. induction fuel as [|fuel IH]; intros b turns i j Hij Hj Hi.
  - cbn [offered] in *. destruct turns; cbn in Hj; (assert (i = 0 /\ j = 0) as [-> ->] by lia); exact Hi.
  - destruct i as [|i].
    + cbn [offered nth] in Hi. apply in_getAllowedTools in Hi. subst b.
      rewrite offered_all_true by exact Hj. apply in_getAllowedTools. reflexivity.
    + destruct j as [|j]; [lia |].
      cbn [offered] in *.
      destruct turns as [|[|c cs] turns]; cbn [List.length nth] in Hj, Hi |- *; try lia.
      apply (IH _ _ i j); [lia | lia | exact Hi].
Qed.

End LoopFacts.

(** X10: one [sendLegalMessage] run calls the model at most [maxTurns + 1]
    = 6 times, whatever tool calls the model requests; the first call never
    offers [verify_necessary]; and once [verify_necessary] is offered, every
    later call of the run offers it too. *)
Theorem sendLegalMessage_tool_loop (now : string) (turns : list (list SessionGate.FunctionCall)) :
  List.length (SessionGate.sendLegalMessage_tools now turns) <= 6 /\
  hd_error (SessionGate.sendLegalMessage_tools now turns) = Some (SessionGate.getAllowedTools false) /\
  ~ In "verify_necessary" (SessionGate.getAllowedTools false) /\
  (forall i j, i <= j -> j < List.length (SessionGate.sendLegalMessage_tools now turns) ->
     In "verify_necessary" (nth i (SessionGate.sendLegalMessage_tools now turns) []) ->
     In "verify_necessary" (nth j (SessionGate.sendLegalMessage_tools now turns) [])).
Proof.
  split; [| split; [| split]].
  - apply LoopFacts.offered_length.
  - reflexivity.
  - rewrite LoopFacts.in_getAllowedTools. discriminate.
  - intros i j. apply LoopFacts.offered_monotone.
Qed.

(* ------------------------------------------------------------------ *)
(** ** Ledger hashes *)

Module HashFacts.
Import Ledger.
Local Open Scope Z_scope.

Lemma toInt32_range (x : Z) : -2147483648 <= toInt32 x < 2147483648.
Proof.
  unfold toInt32. change (2 ^ 31) with 2147483648. change (2 ^ 32) with 4294967296.
  pose proof (Z.mod_pos_bound (x + 2147483648) 4294967296 ltac:(lia)). lia.
Qed.

Lemma hash_loop_range (h : Z) (s : string) :
  -2147483648 <= h < 2147483648 -> -2147483648 <= hash_loop h s < 2147483648.
Proof.
  revert h. induction s as [|c s IH]; intros h Hh; [exact Hh |].
  cbn [hash_loop]. apply IH. unfold hash_step. apply toInt32_range.
Qed.

Lemma slen_app (a b : string) : String.length (a ++ b) = (String.length a + String.length b)%nat.
Proof. induction a as [|c a IH]; cbn; [reflexivity | now rewrite IH]. Qed.

Lemma digits_rev_shape (fuel : nat) (n : Z) (acc : string) :
  0 <= n ->
  exists d, digits_rev (S fuel) 16 n acc = d ++ acc /\ (1 <= String.length d)%nat /\
    (forall k, 0 < k -> n < 16 ^ k -> (String.length d <= Z.to_nat k)%nat).
Proof.
  revert n acc. induction fuel as [|fuel IH]; intros n acc Hn.
  - cbn [digits_rev]. exists (String (hex_digit (n mod 16)) EmptyString).
    destruct (n <? 16); (split; [reflexivity | split; [cbn; lia |]]);
      intros k Hk _; cbn [String.length]; lia.
  - cbn [digits_rev]. destruct (n <? 16) eqn:Hlt.
    + exists (String (hex_digit (n mod 16)) EmptyString).
      split; [reflexivity | split; [cbn; lia |]]. intros k Hk _; cbn [String.length]; lia.
    + apply Z.ltb_ge in Hlt.
      destruct (IH (n / 16) (String (hex_digit (n mod 16)) acc)) as [d [Hd [H1 H2]]].
      { apply Z.div_pos; lia. }
      exists (d ++ String (hex_digit (n mod 16)) EmptyString).
      cbn [digits_rev] in Hd. rewrite Hd, str_app_assoc. split; [reflexivity |].
      rewrite slen_app. cbn [String.length]. split; [lia |].
      intros k Hk Hnk.
      assert (Hk2 : 2 <= k).
      { destruct (Z.eq_dec k 1) as [->|]; [cbn in Hnk; lia | lia]. }
      assert (Hq : n / 16 < 16 ^ (k - 1)).
      { apply Z.div_lt_upper_bound; [lia |].
        replace k with (Z.succ (k - 1)) in Hnk by lia. rewrite Z.pow_succ_r in Hnk by lia. lia. }
      specialize (H2 (k - 1) ltac:(lia) Hq). rewrite Z2Nat.inj_sub in H2 by lia.
      change (Z.to_nat 1) with 1%nat in H2. lia.
Qed.

Lemma zeros_length (k : nat) : String.length (zeros k) = k.
Proof. induction k as [|k IH]; cbn; [reflexivity | now rewrite IH]. Qed.

End HashFacts.

(** X11: every ledger hash is "0x", then sixteen hexadecimal digits of which
    the first eight are always 0 (the 32-bit value is at most 2^31 in
    magnitude, so at most eight digits are significant), then the random
    suffix: it starts with "0x00000000" and its length is 18 plus that of the
    random suffix. *)
Theorem generateHash_shape (rand8 str : string) :
  startsWith (Ledger.generateHash rand8 str) "0x00000000" = true /\
  String.length (Ledger.generateHash rand8 str) = 18 + String.length rand8.
Proof.
  unfold Ledger.generateHash, Ledger.padStart16, Ledger.Z_to_string.
  pose proof (HashFacts.hash_loop_range 0 str ltac:(lia)) as Hr.
  destruct (HashFacts.digits_rev_shape 63 (Z.abs (Ledger.hash_loop 0 str)) EmptyString
              ltac:(lia)) as [d [Hd [H1 H2]]].
  rewrite Hd, str_app_nil_r.
  specialize (H2 8%Z ltac:(lia) ltac:(cbn; lia)). change (Z.to_nat 8) with 8 in H2.
  split.
  - replace (16 - String.length d) with (S (S (S (S (S (S (S (S (8 - String.length d))))))))) by lia.
    apply startsWith_spec. exists (Ledger.zeros (8 - String.length d) ++ d ++ rand8).
    cbn [Ledger.zeros String.append]. rewrite str_app_assoc. reflexivity.
  - cbn [String.append String.length]. rewrite !HashFacts.slen_app, HashFacts.zeros_length. lia.
Qed.

(* ------------------------------------------------------------------ *)
(** ** Statistics of the audit view *)

Module StatsFacts.
Import Ledger AuditStats.

Lemma filter_length_le {A} (f g : A -> bool) (l : list A) :
  (forall x, f x = true -> g x = true) ->
  List.length (filter f l) <= List.length (filter g l).
Proof.
  intros Hfg. induction l as [|x l IH]; [reflexivity |]. cbn [filter].
  destruct (f x) eqn:Hf; [rewrite (Hfg x Hf); cbn; lia |].
  destruct (g x); cbn; lia.
Qed.

Lemma get_or_zero_set (k k' : string) (n : nat) (acc : list (string * nat)) :
  get_or_zero k (set_prop k' n acc) = if String.eqb k k' then n else get_or_zero k acc.
Proof.
  unfold get_or_zero. induction acc as [|[k0 m] acc IH]; cbn [set_prop lookup].
  - destruct (String.eqb k k'); reflexivity.
  - destruct (String.eqb k' k0) eqn:E.
    + apply String.eqb_eq in E. subst k0. cbn [lookup].
      destruct (String.eqb k k'); reflexivity.
    + cbn [lookup]. destruct (String.eqb k k0) eqn:E'; [| exact IH].
      apply String.eqb_eq in E'. subst k0.
      destruct (String.eqb k k') eqn:E''; [| reflexivity].
      apply String.eqb_eq in E''. subst k'. rewrite String.eqb_refl in E. discriminate.
Qed.

Lemma counts_fold (k : string) (es : list AuditEntry) (acc : list (string * nat)) :
  get_or_zero k (fold_left (fun acc e => set_prop (status_name (status e))
                                          (get_or_zero (status_name (status e)) acc + 1) acc)
                           es acc) =
  get_or_zero k acc + List.length (filter (fun e => String.eqb k (status_name (status e))) es).
Proof.
  revert acc. induction es as [|e es IH]; intros acc; cbn [fold_left filter List.length]; [lia |].
  rewrite IH, get_or_zero_set.
  destruct (String.eqb k (status_name (status e))) eqn:E; cbn [List.length].
  - apply String.eqb_eq in E. rewrite <- E. lia.
  - lia.
Qed.

Lemma status_total (es : list AuditEntry) :
  List.length (filter (fun e => String.eqb "Verified" (status_name (status e))) es) +
  List.length (filter (fun e => String.eqb "Pending" (status_name (status e))) es) +
  List.length (filter (fun e => String.eqb "Refining" (status_name (status e))) es) +
  List.length (filter (fun e => String.eqb "Error" (status_name (status e))) es) =
  List.length es.
Proof.
  induction es as [|e es IH]; [reflexivity |]. cbn [filter List.length].
  assert (H1 : forall s : EntryStatus,
             (if String.eqb "Verified" (status_name s) then 1 else 0) +
             (if String.eqb "Pending" (status_name s) then 1 else 0) +
             (if String.eqb "Refining" (status_name s) then 1 else 0) +
             (if String.eqb "Error" (status_name s) then 1 else 0) = 1)
    by (intros []; reflexivity).
  generalize (H1 (status e)).
  destruct (String.eqb "Verified" (status_name (status e)));
  destruct (String.eqb "Pending" (status_name (status e)));
  destruct (String.eqb "Refining" (status_name (status e)));
  destruct (String.eqb "Error" (status_name (status e))); cbn [List.length]; lia.
Qed.

End StatsFacts.

(** X12: in the audit view, the count of entries below the confidence
    threshold never exceeds the count of audited entries, for every
    threshold; and an entry whose critic score is 0 counts as neither
    audited nor below the threshold. *)
Theorem audit_metrics_below_le_total (thr : spec_float) (es : list Ledger.AuditEntry)
    (e : Ledger.AuditEntry) (sgn : bool) :
  AuditStats.belowThreshold thr es <= AuditStats.totalAudited es /\
  (AuditStats.critic_score e = Some (S754_zero sgn) ->
     AuditStats.totalAudited (e :: es) = AuditStats.totalAudited es /\
     AuditStats.belowThreshold thr (e :: es) = AuditStats.belowThreshold thr es).
Proof.
  split.
  - apply StatsFacts.filter_length_le. intros x.
    destruct (AuditStats.critic_score x) as [y|]; [| discriminate].
    intros H. apply andb_true_iff in H. apply H.
  - intros H. unfold AuditStats.totalAudited, AuditStats.belowThreshold.
    cbn [filter]. rewrite H. split; reflexivity.
Qed.

(** X13: the status chart of the audit view accounts for every entry: its
    values add up to the number of entries in the ledger. *)
Theorem statusChart_total (es : list Ledger.AuditEntry) :
  list_sum (map (fun '(_, v, _) => v) (AuditStats.statusChart es)) = List.length es.
Proof.
  unfold AuditStats.statusChart, AuditStats.statusCounts.
  rewrite !StatsFacts.counts_fold. cbn [AuditStats.get_or_zero AuditStats.lookup].
  rewrite <- (StatsFacts.status_total es).
  destruct (List.length (filter (fun e => String.eqb "Verified" (AuditStats.status_name (Ledger.status e))) es));
  destruct (List.length (filter (fun e => String.eqb "Pending" (AuditStats.status_name (Ledger.status e))) es));
  destruct (List.length (filter (fun e => String.eqb "Refining" (AuditStats.status_name (Ledger.status e))) es));
  destruct (List.length (filter (fun e => String.eqb "Error" (AuditStats.status_name (Ledger.status e))) es));
  cbn; lia.
Qed.

(* ------------------------------------------------------------------ *)
(** ** The critic audit *)

(** X14: the critic audit fails open: when the model call rejects, or when
    its text (or "{}" when the text is empty or missing) is not valid JSON or
    is the JSON [null], the audit reports the score 1 with the critique
    "Audit bypass: System optimal." *)
Theorem runArbiterAudit_fail_open (e : string) (t : option string)
    (H : Json.JSON_parse (or_str t "{}") = None \/
         Json.JSON_parse (or_str t "{}") = Some Json.JNull) :
  Critic.runArbiterAudit (AgentGate.Throw e) = Critic.bypass /\
  Critic.runArbiterAudit (AgentGate.Ok t) = Critic.bypass.
Proof.
  split; [reflexivity |].
  unfold Critic.runArbiterAudit. destruct H as [H | H]; rewrite H; reflexivity.
Qed.

Lemma runArbiterAudit_fail_open_witness :
  Json.JSON_parse (or_str (Some "{score: 0.2}") "{}") = None /\
  Critic.runArbiterAudit (AgentGate.Throw "Error") = Critic.bypass /\
  Critic.runArbiterAudit (AgentGate.Ok (Some "{score: 0.2}")) = Critic.bypass.
Proof.
  assert (H : Json.JSON_parse (or_str (Some "{score: 0.2}") "{}") = None) by (vm_compute; reflexivity).
  split; [exact H |].
  exact (runArbiterAudit_fail_open "Error" (Some "{score: 0.2}") (or_introl H)).
Defined.

(** X15: when the critic's text parses to a value other than [null] that has
    no truthy [score] (no such member, or a score of 0, false, "" or null),
    the audit reports the score 0.95; in particular an empty or missing text
    yields the score 0.95 with the critique "Verified compliant." *)
Theorem runArbiterAudit_default_score (t : option string) (v : Json.json)
    (Hp : Json.JSON_parse (or_str t "{}") = Some v)
    (Hs : match v with
          | Json.JNull => False
          | Json.JObj ms => match Json.member (Json.key "score") ms with
                            | Some x => Critic.json_truthy x = false
                            | None => True
                            end
          | _ => True
          end) :
  Critic.score (Critic.runArbiterAudit (AgentGate.Ok t)) = Critic.JSNum Critic.js_0_95 /\
  Critic.runArbiterAudit (AgentGate.Ok None) =
    {| Critic.score := Critic.JSNum Critic.js_0_95;
       Critic.critique := Critic.JSStr "Verified compliant." |} /\
  Critic.runArbiterAudit (AgentGate.Ok (Some "")) = Critic.runArbiterAudit (AgentGate.Ok None).
Proof.
  split; [| split; reflexivity].
  unfold Critic.runArbiterAudit. rewrite Hp.
  destruct v as [| b | lx | s | xs | ms]; try contradiction; try reflexivity.
  cbn [Critic.get_prop]. revert Hs.
  destruct (Json.member (Json.key "score") ms) as [x |]; [intros Hs | intros _];
    cbn [Critic.score Critic.or_js]; [rewrite Hs |]; reflexivity.
Qed.

Lemma runArbiterAudit_default_score_witness :
  Critic.score (Critic.runArbiterAudit
    (AgentGate.Ok (Some ("{" ++ dq ++ "score" ++ dq ++ ":0," ++ dq ++ "critique" ++ dq ++ ":"
                         ++ dq ++ "Cites no statute." ++ dq ++ "}"))))
  = Critic.JSNum Critic.js_0_95.
Proof.
  apply (runArbiterAudit_default_score _
           (Json.JObj [(Json.key "score", Json.JNum ["0"%char]);
                       (Json.key "critique", Json.JStr (Json.key "Cites no statute."))]));
    vm_compute; reflexivity.
Defined.

(* ------------------------------------------------------------------ *)
(** ** Round trip of the ordinary checker's output through the agent gate *)

Module RoundTrip.
Import Json AgentGate.

Lemma list_ascii_of_string_app (a b : string) :
  list_ascii_of_string (a ++ b) = app (list_ascii_of_string a) (list_ascii_of_string b).
Proof. induction a as [|c a IH]; cbn; [reflexivity | now rewrite IH]. Qed.

Lemma escape_char_parse (c : ascii) (rest : list ascii) :
  parse_chars (app (list_ascii_of_string (Stringify.escape_char c)) rest) =
  cons_opt (N.of_nat (code c)) (parse_chars rest).
Proof. destruct c as [[] [] [] [] [] [] [] []]; reflexivity. Qed.

Lemma escape_parse (s : string) (rest : list ascii) :
  parse_chars (app (list_ascii_of_string (Stringify.escape s)) ("034"%char :: rest)) =
  Some (key s, rest).
Proof.
  induction s as [|c s IH]; [reflexivity |].
  cbn [Stringify.escape]. rewrite list_ascii_of_string_app, <- app_assoc, escape_char_parse, IH.
  reflexivity.
Qed.

(** The member loop of [parse_value] on objects, with the value parser
    [pv] it calls. *)
Section Members.
Variable pv : list ascii -> option (json * list ascii).

Fixpoint members_fn (g : nat) (cs0 : list ascii) (acc : list (list N * json))
    : option (json * list ascii) :=
  match g with
  | O => None
  | S g' =>
      match skip_ws cs0 with
      | q :: r0 =>
          if is_char 34 q then
            match parse_chars r0 with
            | Some (k, r1) =>
                match skip_ws r1 with
                | col :: r2 =>
                    if is_char 58 col then
                      match pv r2 with
                      | Some (v, r3) =>
                          match skip_ws r3 with
                          | sep :: r4 =>
                              if is_char 44 sep then members_fn g' r4 (app acc [(k, v)])
                              else if is_char 125 sep then Some (JObj (app acc [(k, v)]), r4)
                              else None
                          | [] => None
                          end
                      | None => None
                      end
                    else None
                | [] => None
                end
            | None => None
            end
          else None
      | [] => None
      end
  end.

End Members.

Lemma parse_value_object (f : nat) (r : list ascii) :
  parse_value (S f) ("{"%char :: "034"%char :: r) = members_fn (parse_value f) f ("034"%char :: r) [].
Proof. simpl. reflexivity. Qed.

Lemma members_string_comma (f g : nat) (k s : string) (rest : list ascii) acc :
  members_fn (parse_value (S f)) (S g)
    ("034"%char :: app (list_ascii_of_string (Stringify.escape k))
       ("034"%char :: ":"%char :: "034"%char :: app (list_ascii_of_string (Stringify.escape s))
          ("034"%char :: ","%char :: rest))) acc =
  members_fn (parse_value (S f)) g rest (app acc [(key k, JStr (key s))]).
Proof. simpl. rewrite escape_parse. simpl. rewrite escape_parse. reflexivity. Qed.

Lemma members_string_close (f g : nat) (k s : string) (rest : list ascii) acc :
  members_fn (parse_value (S f)) (S g)
    ("034"%char :: app (list_ascii_of_string (Stringify.escape k))
       ("034"%char :: ":"%char :: "034"%char :: app (list_ascii_of_string (Stringify.escape s))
          ("034"%char :: "}"%char :: rest))) acc =
  Some (JObj (app acc [(key k, JStr (key s))]), rest).
Proof. simpl. rewrite escape_parse. simpl. rewrite escape_parse. reflexivity. Qed.

Lemma members_bool_comma (f g : nat) (k : string) (b : bool) (rest : list ascii) acc :
  members_fn (parse_value (S f)) (S g)
    ("034"%char :: app (list_ascii_of_string (Stringify.escape k))
       ("034"%char :: ":"%char :: app (list_ascii_of_string (if b then "true" else "false"))
          (","%char :: rest))) acc =
  members_fn (parse_value (S f)) g rest (app acc [(key k, JBool b)]).
Proof. simpl. rewrite escape_parse. destruct b; reflexivity. Qed.

Lemma length_list_ascii_of_string (s : string) :
  List.length (list_ascii_of_string s) = String.length s.
Proof. induction s as [|c s IH]; cbn; [reflexivity | now rewrite IH]. Qed.

Definition step_members (v : ValidationStep) : list (list N * json) :=
  [(key "rule_id", JStr (key (rule_id v))); (key "passed", JBool (passed v));
   (key "details", JStr (key (details v)));
   (key "evidence_source", JStr (key (evidence_source v)));
   (key "timestamp", JStr (key (timestamp v)))] ++
  match generated_content v with
  | Some g => [(key "generated_content", JStr (key g))]
  | None => []
  end.

(** [JSON.parse(JSON.stringify(step))] gives back an object with the
    fields of the step. *)
Lemma stringify_step_parse (v : ValidationStep) :
  JSON_parse (Stringify.stringify_step v) = Some (JObj (step_members v)).
Proof.
  assert (Hlen : exists m, List.length (list_ascii_of_string (Stringify.stringify_step v)) =
                           S (S (S (S (S (S (S m))))))).
  { rewrite length_list_ascii_of_string.
    exists (String.length (Stringify.stringify_step v) - 7).
    unfold Stringify.stringify_step, Stringify.prop, Stringify.quote.
    destruct (generated_content v); cbn [join app];
      rewrite !HashFacts.slen_app; cbn [String.length dq]; lia. }
  unfold JSON_parse. cbv zeta. destruct Hlen as [m ->].
  destruct v as [rid p det ev ts gc].
  unfold Stringify.stringify_step, Stringify.prop, Stringify.quote, step_members.
  cbn [rule_id passed details evidence_source timestamp generated_content].
  destruct gc as [g |]; cbn [join app]; rewrite !list_ascii_of_string_app, <- !app_assoc;
    unfold dq; cbn [list_ascii_of_string app]; change (ascii_of_nat 34) with "034"%char;
    rewrite parse_value_object, members_string_comma, members_bool_comma, !members_string_comma;
    first [rewrite members_string_close | idtac]; reflexivity.
Qed.

Lemma pop_some {A} (l : list A) (x : A) : pop l = Some x -> exists l', l = app l' [x].
Proof.
  induction l as [|y l IH]; [discriminate |].
  destruct l as [|z l]; cbn [pop].
  - intros [= ->]. exists []. reflexivity.
  - intros H. destruct (IH H) as [l' Hl']. exists (y :: l'). rewrite Hl'. reflexivity.
Qed.

Lemma filter_snoc_split (h : list HistoryItem) (l : list HistoryItem) (x : HistoryItem) :
  filter is_ordinary_result h = app l [x] ->
  exists h1 h2, h = app h1 (x :: h2) /\ is_ordinary_result x = true /\
                forallb GateFacts.not_ordinary h2 = true.
Proof.
  revert l. induction h as [|y h IH] using rev_ind; intros l H.
  - destruct l; discriminate H.
  - rewrite filter_app in H. cbn [filter] in H.
    destruct (is_ordinary_result y) eqn:Hy.
    + apply app_inj_tail in H. destruct H as [_ ->].
      exists h, []. split; [reflexivity | split; [exact Hy | reflexivity]].
    + rewrite app_nil_r in H. destruct (IH l H) as [h1 [h2 [-> [Hx Hh2]]]].
      exists h1, (app h2 [y]). split; [rewrite <- app_assoc; reflexivity |].
      split; [exact Hx |]. rewrite forallb_app, Hh2. cbn. unfold GateFacts.not_ordinary. now rewrite Hy.
Qed.

End RoundTrip.

(** X16: when the most recent ordinary-check result in the run history
    records the serialized validation step the tool returned, the agent gate
    enables the necessity tool exactly when that step passed: the
    stringify/parse round trip keeps the verdict. *)
Theorem agent_gate_reads_tool_verdict (v : ValidationStep)
    (h h' : list AgentGate.HistoryItem) (item : AgentGate.HistoryItem)
    (Hi : AgentGate.is_ordinary_result item = true)
    (Hh' : forallb GateFacts.not_ordinary h' = true)
    (Ho : AgentGate.item_output item = Stringify.stringify_step v) :
  AgentGate.isNecessaryEnabled (Some (app h (item :: h'))) = AgentGate.Ok (passed v).
Proof.
  rewrite (GateFacts.agent_gate_most_recent h h' item Hi Hh'), Ho, RoundTrip.stringify_step_parse.
  destruct v as [rid [] det ev ts [g |]]; reflexivity.
Qed.

Lemma agent_gate_reads_tool_verdict_witness :
  AgentGate.isNecessaryEnabled
    (Some (app [] (GateExamples.ordinary_result (Stringify.stringify_step GateExamples.ordinary_pass) :: [])))
  = AgentGate.Ok (passed GateExamples.ordinary_pass).
Proof.
  apply agent_gate_reads_tool_verdict; reflexivity.
Defined.

(** X17: the agent gate opens only on evidence: if it enables the necessity
    tool, the history contains an ordinary-check result after which no other
    ordinary-check result follows, and that result's output parses to an
    object whose last [passed] member is the boolean true. *)
Theorem agent_gate_open_sound (hist : list AgentGate.HistoryItem)
    (H : AgentGate.isNecessaryEnabled (Some hist) = AgentGate.Ok true) :
  exists h1 item h2 ms,
    hist = app h1 (item :: h2) /\ AgentGate.is_ordinary_result item = true /\
    forallb GateFacts.not_ordinary h2 = true /\
    Json.JSON_parse (AgentGate.item_output item) = Some (Json.JObj ms) /\
    Json.member (Json.key "passed") ms = Some (Json.JBool true).
Proof.
  destruct (AgentGate.pop (filter AgentGate.is_ordinary_result hist)) as [x |] eqn:Hp.
  2: { unfold AgentGate.isNecessaryEnabled in H. rewrite Hp in H. discriminate H. }
  destruct (RoundTrip.pop_some _ _ Hp) as [l Hl].
  destruct (RoundTrip.filter_snoc_split hist l x Hl) as [h1 [h2 [Hh [Hx Hh2]]]].
  rewrite Hh, (GateFacts.agent_gate_most_recent h1 h2 x Hx Hh2) in H.
  destruct (Json.JSON_parse (AgentGate.item_output x)) as [[| b | lx | s | xs | ms] |] eqn:Hj;
    try discriminate H.
  exists h1, x, h2, ms. split; [exact Hh | split; [exact Hx | split; [exact Hh2 | split; [exact Hj |]]]].
  cbn [AgentGate.passed_is_true] in H.
  destruct (Json.member (Json.key "passed") ms) as [[| [|] | | | |] |]; try discriminate H.
  reflexivity.
Qed.

Lemma agent_gate_open_sound_witness :
  exists h1 item h2 ms,
    [GateExamples.ordinary_result (Stringify.stringify_step GateExamples.ordinary_pass)] =
      app h1 (item :: h2) /\ AgentGate.is_ordinary_result item = true /\
    forallb GateFacts.not_ordinary h2 = true /\
    Json.JSON_parse (AgentGate.item_output item) = Some (Json.JObj ms) /\
    Json.member (Json.key "passed") ms = Some (Json.JBool true).
Proof.
  apply agent_gate_open_sound. vm_compute. reflexivity.
Defined.
